(** * AI Traffic Signal Controller: the intersection state machine

    A shallow embedding of [backend/server.py]: the module-level
    [simulation_state] dictionary and the request handlers that mutate it
    ([update_traffic], [pause_simulation], [resume_simulation],
    [set_manual_control], [set_auto_mode], [reset_simulation]).

    Python dictionaries keyed by direction names are finite maps over
    strings; a handler is a computation over the shared state that either
    returns a response or raises, the state written so far being kept. *)

From Stdlib Require Import ZArith Ascii String DecimalString.
From stdpp Require Import gmap strings list fin_maps.

Open Scope string_scope.
Open Scope Z_scope.

(** ** Data model *)

(** One entry of [traffic_data]: [{"vehicles": int, "signal": str}]. *)
Record Approach := mkApproach {
  vehicles : Z;
  signal : string
}.

#[global] Instance Approach_eq_dec : EqDecision Approach.
Proof. solve_decision. Defined.

(** An insight as built by [update_traffic].  [vehicle_counts] is the
    dictionary filled by the first loop, kept in insertion order. *)
Record Insight := mkInsight {
  timestamp : string;
  decision : string;
  explanation : string;
  vehicle_counts : list (string * Z)
}.

#[global] Instance Insight_eq_dec : EqDecision Insight.
Proof. solve_decision. Defined.

(** The [simulation_state] dictionary; its top-level keys are fixed by the
    literal, so it is a record. *)
Record State := mkState {
  is_paused : bool;
  is_manual : bool;
  current_green : string;
  traffic_data : gmap string Approach;
  insights : list Insight;
  cycle_count : Z
}.

#[global] Instance State_eq_dec : EqDecision State.
Proof. solve_decision. Defined.

Definition with_is_paused (b : bool) (s : State) : State :=
  mkState b (is_manual s) (current_green s) (traffic_data s) (insights s) (cycle_count s).
Definition with_is_manual (b : bool) (s : State) : State :=
  mkState (is_paused s) b (current_green s) (traffic_data s) (insights s) (cycle_count s).
Definition with_current_green (d : string) (s : State) : State :=
  mkState (is_paused s) (is_manual s) d (traffic_data s) (insights s) (cycle_count s).
Definition with_traffic_data (td : gmap string Approach) (s : State) : State :=
  mkState (is_paused s) (is_manual s) (current_green s) td (insights s) (cycle_count s).
Definition with_insights (l : list Insight) (s : State) : State :=
  mkState (is_paused s) (is_manual s) (current_green s) (traffic_data s) l (cycle_count s).
Definition with_cycle_count (n : Z) (s : State) : State :=
  mkState (is_paused s) (is_manual s) (current_green s) (traffic_data s) (insights s) n.

(** The module-level literal (server.py, lines 33-45). *)
Definition simulation_state : State := {|
  is_paused := false;
  is_manual := false;
  current_green := "north";
  traffic_data :=
    <["west" := mkApproach 0 "red"]>
    (<["east" := mkApproach 0 "red"]>
    (<["south" := mkApproach 0 "red"]>
    (<["north" := mkApproach 0 "red"]> ∅)));
  insights := [];
  cycle_count := 0
|}.

(** The list literal [["north", "south", "east", "west"]] used by every loop
    and by the membership test of [set_manual_control]. *)
Definition directions : list string := ["north"; "south"; "east"; "west"].

(** ** Handlers as computations: shared state and exceptions *)

Inductive Exn :=
| KeyError (key : string)
| ValueError (msg : string)
| TypeError (msg : string)
| ProviderError (msg : string)
| HTTPException (status_code : Z) (detail : string).

Inductive Res (A : Type) :=
| Ok (a : A)
| Raise (e : Exn).
Arguments Ok {A} a.
Arguments Raise {A} e.

(** A computation reads and writes the shared state; when it raises, the
    writes made before the exception stay. *)
Definition M (A : Type) : Type := State → Res A * State.

#[global] Instance M_ret : MRet M := λ A a s, (Ok a, s).
#[global] Instance M_bind : MBind M := λ A B k m s,
  match m s with
  | (Ok a, s') => k a s'
  | (Raise e, s') => (Raise e, s')
  end.

Definition raise {A} (e : Exn) : M A := λ s, (Raise e, s).
Definition get : M State := λ s, (Ok s, s).
Definition modify (f : State → State) : M unit := λ s, (Ok tt, f s).

(** [for x in xs: body x] *)
Fixpoint for_each {A} (xs : list A) (body : A → M unit) : M unit :=
  match xs with
  | [] => mret tt
  | x :: xs' => body x ;; for_each xs' body
  end.

(** [simulation_state["traffic_data"][direction]["signal"] = v]: the inner
    dictionary is looked up (KeyError when absent) and updated in place. *)
Definition set_signal (direction v : string) : M unit :=
  λ s, match traffic_data s !! direction with
       | Some a => (Ok tt, with_traffic_data (<[direction := mkApproach (vehicles a) v]> (traffic_data s)) s)
       | None => (Raise (KeyError direction), s)
       end.

(** [simulation_state["traffic_data"][direction]["vehicles"] = count] *)
Definition set_vehicles (direction : string) (count : Z) : M unit :=
  λ s, match traffic_data s !! direction with
       | Some a => (Ok tt, with_traffic_data (<[direction := mkApproach count (signal a)]> (traffic_data s)) s)
       | None => (Raise (KeyError direction), s)
       end.

(** The signal loop shared by [update_traffic] and [set_manual_control]:
<<
    for direction in [...]:
        if direction == target: ...["signal"] = "green"
        else:                   ...["signal"] = "red"
>> *)
Definition update_signals (target : string) : M unit :=
  for_each directions (λ direction,
    if decide (direction = target) then set_signal direction "green"
    else set_signal direction "red").

(** ** The handlers without external collaborators *)

Inductive Response :=
| Message (message : string)
| MessagePaused (message : string) (paused : bool)
| MessageManual (message : string) (manual : bool)
| MessageTraffic (message : string) (td : gmap string Approach)
| CycleResult (td : gmap string Approach) (green : string) (insight : Insight).

Definition pause_simulation : M Response :=
  modify (with_is_paused true) ;;
  mret (MessagePaused "Simulation paused" true).

Definition resume_simulation : M Response :=
  modify (with_is_paused false) ;;
  mret (MessagePaused "Simulation resumed" false).

Definition set_manual_control (direction : string) : M Response :=
  if decide (direction ∈ directions) then
    modify (with_is_manual true) ;;
    update_signals direction ;;
    modify (with_current_green direction) ;;
    s ← get;
    mret (MessageTraffic ("Manual control: " ++ direction ++ " set to green") (traffic_data s))
  else raise (HTTPException 400 "Invalid direction").

Definition set_auto_mode : M Response :=
  modify (with_is_manual false) ;;
  mret (MessageManual "Switched to automatic mode" false).

Definition reset_simulation : M Response :=
  modify (with_is_paused false) ;;
  modify (with_is_manual false) ;;
  modify (with_current_green "north") ;;
  modify (with_cycle_count 0) ;;
  modify (with_insights []) ;;
  for_each directions (λ direction,
    modify (λ s, with_traffic_data (<[direction := mkApproach 0 "red"]> (traffic_data s)) s)) ;;
  s ← get;
  mret (MessageTraffic "Simulation reset" (traffic_data s)).

(** ** Python built-ins used by [update_traffic] *)

(** A dictionary whose iteration order matters ([vehicle_counts]) is an
    association list in insertion order.  [d[k] = v] overwrites in place or
    appends. *)
Fixpoint dict_set (k : string) (v : Z) (d : list (string * Z)) : list (string * Z) :=
  match d with
  | [] => [(k, v)]
  | (k', v') :: d' => if decide (k' = k) then (k, v) :: d' else (k', v') :: dict_set k v d'
  end.

(** [d.get(k)] *)
Fixpoint dict_get (d : list (string * Z)) (k : string) : option Z :=
  match d with
  | [] => None
  | (k', v) :: d' => if decide (k' = k) then Some v else dict_get d' k
  end.

(** [d[k]] in an expression that is not guarded by the handler. *)
Definition dict_item (d : list (string * Z)) (k : string) : Res Z :=
  match dict_get d k with
  | Some v => Ok v
  | None => Raise (KeyError k)
  end.

(** Iterating a dictionary yields its keys in insertion order. *)
Definition dict_keys (d : list (string * Z)) : list string := d.*1.

(** [max(iterable, key=f)]: the running maximum is replaced only by an item
    whose key is strictly greater, so the first maximal item is returned.
    Comparing [None] with anything raises. *)
Fixpoint max_scan (key : string → option Z) (best : string) (best_key : option Z)
    (rest : list string) : Res string :=
  match rest with
  | [] => Ok best
  | item :: rest' =>
      match key item, best_key with
      | Some v, Some b =>
          if v >? b then max_scan key item (Some v) rest'
          else max_scan key best best_key rest'
      | _, _ => Raise (TypeError "'>' not supported")
      end
  end.

Definition py_max (iterable : list string) (key : string → option Z) : Res string :=
  match iterable with
  | [] => Raise (ValueError "max() arg is an empty sequence")
  | item :: rest => max_scan key item (key item) rest
  end.

(** [str(n)] for an integer, as interpolated by an f-string. *)
Definition str (n : Z) : string := NilZero.string_of_int (Z.to_int n).

(** [s.upper()] on ASCII text (the direction names are ASCII). *)
Definition upper_ascii (c : ascii) : ascii :=
  let n := nat_of_ascii c in
  if (97 <=? n)%nat && (n <=? 122)%nat then ascii_of_nat (n - 32) else c.

Fixpoint upper (s : string) : string :=
  match s with
  | EmptyString => EmptyString
  | String c s' => String (upper_ascii c) (upper s')
  end.

(** [random.randint(a, b)]: an integer of [a..b], here taken from one raw
    value of the generator. *)
Definition randint (a b raw : Z) : Z := a + raw `mod` (b - a + 1).

(** ** External collaborators of one [update_traffic] request *)

Record Inputs := mkInputs {
  (** the raw value behind the k-th call of [random.randint] *)
  entropy : nat → Z;
  (** [LlmChat(...).with_model(...).send_message(UserMessage(text=prompt))]:
      a reply, or an exception *)
  send_message : string → Res string;
  (** [datetime.now(timezone.utc).isoformat()] *)
  utc_now : string
}.

#[global] Instance Res_ret : MRet Res := λ A a, Ok a.
#[global] Instance Res_bind : MBind Res := λ A B k m,
  match m with
  | Ok a => k a
  | Raise e => Raise e
  end.

Definition fallback_explanation (direction : string) (vehicle_count : Z) : string :=
  "Prioritizing " ++ direction ++ " road with " ++ str vehicle_count
    ++ " vehicles due to highest congestion.".

(** server.py, lines 77-93.  Everything inside [try] is one fallible
    computation; [except Exception] turns any exception into the fallback
    string. *)
Definition generate_ai_explanation (inp : Inputs)
    (direction : string) (vehicle_count : Z) (all_counts : list (string * Z)) : string :=
  let attempt : Res string :=
    n ← dict_item all_counts "north";
    s ← dict_item all_counts "south";
    e ← dict_item all_counts "east";
    w ← dict_item all_counts "west";
    let prompt :=
      "Traffic detected: North=" ++ str n ++ ", South=" ++ str s
        ++ ", East=" ++ str e ++ ", West=" ++ str w
        ++ " vehicles. The " ++ direction
        ++ " road has the highest congestion with " ++ str vehicle_count
        ++ " vehicles. Explain why you're prioritizing this direction." in
    send_message inp prompt in
  match attempt with
  | Ok response => response
  | Raise _ => fallback_explanation direction vehicle_count
  end.

(** Lift a pure fallible expression into a handler. *)
Definition lift {A} (r : Res A) : M A := λ s, (r, s).

(** The first loop of [update_traffic]: the k-th iteration draws a count,
    stores it in the state and in [vehicle_counts]. *)
Fixpoint draw_counts (inp : Inputs) (k : nat) (ds : list string)
    (vehicle_counts : list (string * Z)) : M (list (string * Z)) :=
  match ds with
  | [] => mret vehicle_counts
  | direction :: ds' =>
      let count := randint 0 50 (entropy inp k) in
      set_vehicles direction count ;;
      draw_counts inp (S k) ds' (dict_set direction count vehicle_counts)
  end.

(** [insights.insert(0, insight)] followed by the truncation to 10. *)
Definition store_insight (insight : Insight) (s : State) : State :=
  let l := insight :: insights s in
  if (10 <? length l)%nat then with_insights (take 10 l) s
  else with_insights l s.

Definition skipped_message : string := "Simulation paused or in manual mode".

(** server.py, lines 113-161. *)
Definition update_traffic (inp : Inputs) : M Response :=
  s ← get;
  if is_paused s || is_manual s then mret (Message skipped_message)
  else
    vehicle_counts ← draw_counts inp 0 directions [];
    max_direction ← lift (py_max (dict_keys vehicle_counts) (dict_get vehicle_counts));
    max_count ← lift (dict_item vehicle_counts max_direction);
    update_signals max_direction ;;
    modify (with_current_green max_direction) ;;
    modify (λ s, with_cycle_count (cycle_count s + 1) s) ;;
    let explanation := generate_ai_explanation inp max_direction max_count vehicle_counts in
    let insight := {|
      timestamp := utc_now inp;
      decision := "Green light: " ++ upper max_direction;
      explanation := explanation;
      vehicle_counts := vehicle_counts
    |} in
    modify (store_insight insight) ;;
    s' ← get;
    mret (CycleResult (traffic_data s') max_direction insight).

(** ** Requests and runs of the server *)

Inductive Request :=
| ReqUpdate (inp : Inputs)
| ReqPause
| ReqResume
| ReqManual (direction : string)
| ReqAuto
| ReqReset.

Definition handle (r : Request) : M Response :=
  match r with
  | ReqUpdate inp => update_traffic inp
  | ReqPause => pause_simulation
  | ReqResume => resume_simulation
  | ReqManual direction => set_manual_control direction
  | ReqAuto => set_auto_mode
  | ReqReset => reset_simulation
  end.

(** The state after serving the requests in order; a request that raises is
    answered with an error and the process goes on with the state as it is. *)
Fixpoint serve (rs : list Request) (s : State) : State :=
  match rs with
  | [] => s
  | r :: rs' => serve rs' (handle r s).2
  end.

(** ** Predicates of the specification *)

(** Every direction has an entry in [traffic_data]. *)
Definition well_formed (td : gmap string Approach) : Prop :=
  Forall (λ d, is_Some (td !! d)) directions.

(** The directions whose signal has the given colour, in enumeration order. *)
Definition signals_with (colour : string) (td : gmap string Approach) : list string :=
  filter (λ d, signal <$> td !! d = Some colour) directions.

(** Exactly one approach is green, it is [current_green], and the other
    three are red. *)
Definition one_green (s : State) : Prop :=
  signals_with "green" (traffic_data s) = [current_green s] ∧
  length (signals_with "red" (traffic_data s)) = 3%nat.

(** A request to [update_traffic] is skipped when paused or manual. *)
Definition skipped (s : State) : bool := is_paused s || is_manual s.

(** The count drawn for the k-th direction of the enumeration. *)
Definition drawn (inp : Inputs) (k : nat) : Z := randint 0 50 (entropy inp k).

(** The [vehicle_counts] dictionary after the first loop. *)
Definition drawn_counts (inp : Inputs) : list (string * Z) :=
  [("north", drawn inp 0); ("south", drawn inp 1);
   ("east", drawn inp 2); ("west", drawn inp 3)].

(** [g] is the first item of [l] with the largest value of [f]. *)
Definition first_max (f : string → option Z) (l : list string) (g : string) : Prop :=
  ∃ i c, l !! i = Some g ∧ f g = Some c ∧
    (∀ j d, l !! j = Some d → ∃ c', f d = Some c' ∧ c' ≤ c) ∧
    (∀ j d, (j < i)%nat → l !! j = Some d → ∃ c', f d = Some c' ∧ c' < c).

(** Collaborators for the examples: the generator yields 30, 30, 10, 5, the
    language model times out, the clock is fixed. *)
Definition demo_inputs : Inputs := {|
  entropy := λ k, nth k [30; 30; 10; 5] 0;
  send_message := λ _, Raise (ProviderError "timeout");
  utc_now := "2025-01-01T00:00:00+00:00"
|}.

(** The colour given to direction [d] by the loop with target [g]. *)
Definition colour_for (g d : string) : string :=
  if decide (d = g) then "green" else "red".

(** The insight built by a cycle that selects [g] with count [c]. *)
Definition insight_of (inp : Inputs) (g : string) (c : Z) : Insight := {|
  timestamp := utc_now inp;
  decision := "Green light: " ++ upper g;
  explanation := generate_ai_explanation inp g c (drawn_counts inp);
  vehicle_counts := drawn_counts inp
|}.

(** A map that gives every direction the colour the loop gives it. *)
Definition painted (g : string) : gmap string Approach :=
  list_to_map ((λ d, (d, mkApproach 0 (colour_for g d))) <$> directions).

(** ** The decisions taken during a run *)

Definition is_reset (r : Request) : bool :=
  match r with ReqReset => true | _ => false end.

(** The insights returned by the cycles of a run since the last reset,
    newest first, starting from the earlier decisions [past]. *)
Fixpoint history (rs : list Request) (s : State) (past : list Insight) : list Insight :=
  match rs with
  | [] => past
  | r :: rs' =>
      let past' :=
        if is_reset r then []
        else match (handle r s).1 with
             | Ok (CycleResult _ _ insight) => insight :: past
             | _ => past
             end in
      history rs' (handle r s).2 past'
  end.

(** ** Counting completed cycles *)

(** A request completes a cycle when it is an update that is not skipped. *)
Definition completes_cycle (r : Request) (s : State) : bool :=
  match r with
  | ReqUpdate _ => negb (skipped s)
  | _ => false
  end.

Fixpoint completed_cycles (rs : list Request) (s : State) : nat :=
  match rs with
  | [] => 0
  | r :: rs' =>
      ((if completes_cycle r s then 1 else 0) + completed_cycles rs' (handle r s).2)%nat
  end.

(** ** Read-only handlers *)

(** The [TrafficState] response model (server.py, lines 52-60). *)
Record TrafficState := mkTrafficState {
  ts_north : Approach;
  ts_south : Approach;
  ts_east : Approach;
  ts_west : Approach;
  ts_current_green : string;
  ts_is_paused : bool;
  ts_is_manual : bool;
  ts_cycle_count : Z
}.

(** [simulation_state["traffic_data"][direction]] in an expression. *)
Definition traffic_item (direction : string) : M Approach :=
  λ s, match traffic_data s !! direction with
       | Some a => (Ok a, s)
       | None => (Raise (KeyError direction), s)
       end.

(** server.py, lines 95-97. *)
Definition root : M string := mret "AI Traffic Signal Controller API".

(** server.py, lines 99-111: the keyword arguments are evaluated in the
    order they are written. *)
Definition get_current_traffic : M TrafficState :=
  north ← traffic_item "north";
  south ← traffic_item "south";
  east ← traffic_item "east";
  west ← traffic_item "west";
  s ← get;
  mret (mkTrafficState north south east west
          (current_green s) (is_paused s) (is_manual s) (cycle_count s)).

(** server.py, lines 163-166. *)
Definition get_insights : M (list Insight) :=
  s ← get;
  mret (insights s).

(** ** Further predicates *)

(** The prompt built by [generate_ai_explanation] from the four counts. *)
Definition prompt_for (direction : string) (vehicle_count n s e w : Z) : string :=
  "Traffic detected: North=" ++ str n ++ ", South=" ++ str s
    ++ ", East=" ++ str e ++ ", West=" ++ str w
    ++ " vehicles. The " ++ direction
    ++ " road has the highest congestion with " ++ str vehicle_count
    ++ " vehicles. Explain why you're prioritizing this direction.".

(** The first direction of the enumeration that has no entry. *)
Definition first_missing (td : gmap string Approach) : option string :=
  head (filter (λ d, td !! d = None) directions).

(** The keys of [traffic_data] are the four directions and nothing else. *)
Definition keys_are_directions (td : gmap string Approach) : Prop :=
  ∀ k, is_Some (td !! k) ↔ k ∈ directions.

(** Every stored count lies in the range of [random.randint(0, 50)]. *)
Definition counts_in_range (td : gmap string Approach) : Prop :=
  map_Forall (λ _ a, 0 ≤ vehicles a ≤ 50) td.

(** Requests that neither leave manual mode nor repaint the signals. *)
Definition keeps_manual (r : Request) : bool :=
  match r with
  | ReqUpdate _ | ReqPause | ReqResume => true
  | _ => false
  end.

(** Requests that do not end a pause. *)
Definition keeps_pause (r : Request) : bool :=
  match r with
  | ReqResume | ReqReset => false
  | _ => true
  end.

(** The four labels a decision can carry. *)
Definition decision_labels : list string :=
  ["Green light: NORTH"; "Green light: SOUTH"; "Green light: EAST"; "Green light: WEST"].

(** At most one approach is green, a green one is [current_green], and
    every direction shows one of the two colours. *)
Definition signals_consistent (s : State) : Prop :=
  (signals_with "green" (traffic_data s) = [] ∨
   signals_with "green" (traffic_data s) = [current_green s]) ∧
  (length (signals_with "green" (traffic_data s))
     + length (signals_with "red" (traffic_data s)) = 4)%nat ∧
  current_green s ∈ directions.

(** The pointwise form of the signal invariant: all red with
    [current_green] at its initial value, or painted for [current_green]. *)
Definition signals_painted (s : State) : Prop :=
  ((∀ d, d ∈ directions → signal <$> traffic_data s !! d = Some "red") ∧
   current_green s = "north") ∨
  (current_green s ∈ directions ∧
   ∀ d, d ∈ directions →
     signal <$> traffic_data s !! d = Some (colour_for (current_green s) d)).

(** [s'] differs from [s] at most in the vehicle counts of entries that
    both have. *)
Definition only_counts_differ (s s' : State) : Prop :=
  is_paused s' = is_paused s ∧ is_manual s' = is_manual s ∧
  current_green s' = current_green s ∧
  insights s' = insights s ∧ cycle_count s' = cycle_count s ∧
  ∀ k, signal <$> traffic_data s' !! k = signal <$> traffic_data s !! k.

(** [s'] differs from [s] at most in the signals of entries that both
    have. *)
Definition only_signals_differ (s s' : State) : Prop :=
  is_paused s' = is_paused s ∧ is_manual s' = is_manual s ∧
  current_green s' = current_green s ∧
  insights s' = insights s ∧ cycle_count s' = cycle_count s ∧
  ∀ k, vehicles <$> traffic_data s' !! k = vehicles <$> traffic_data s !! k.

(** ** The HTTP application *)

(** The JSON bodies the application sends: one shape per handler return
    value, the error body of an [HTTPException], and the plain text of an
    unhandled exception.  [BEmpty] is the empty dictionary. *)
Inductive Body :=
| BEmpty
| BRoot (message : string)
| BState (ts : TrafficState)
| BResp (r : Response)
| BInsights (l : list Insight)
| BDetail (detail : string)
| BText (text : string).

Record HttpResponse := mkHttpResponse {
  status : Z;
  content : Body
}.

(** What the framework answers on its own: to a request that matches no
    route, and to a manual-control request whose body does not validate as
    [ManualControl]. *)
Record Framework := mkFramework {
  no_route : string → string → HttpResponse;
  unprocessable : HttpResponse
}.

(** A handler that returns gives status 200 with its value; an
    [HTTPException] gives its own status code with its detail; any other
    exception gives status 500. *)
Definition respond {A} (to_body : A → Body) (r : Res A) : HttpResponse :=
  match r with
  | Ok a => mkHttpResponse 200 (to_body a)
  | Raise (HTTPException code detail) => mkHttpResponse code (BDetail detail)
  | Raise _ => mkHttpResponse 500 (BText "Internal Server Error")
  end.

Definition serve_route {A} (to_body : A → Body) (h : M A) : State → HttpResponse * State :=
  λ s, (respond to_body (h s).1, (h s).2).

(** The application as seen through the routes registered on [api_router]
    (prefix [/api]); [endpoint] is the path after [/api/]. *)
Definition api_router (fw : Framework) (inp : Inputs) (method endpoint : string)
    (data : option string) : State → HttpResponse * State :=
  if decide (method = "GET" ∧ endpoint = "") then
    serve_route BRoot root
  else if decide (method = "GET" ∧ endpoint = "traffic/current") then
    serve_route BState get_current_traffic
  else if decide (method = "POST" ∧ endpoint = "traffic/update") then
    serve_route BResp (update_traffic inp)
  else if decide (method = "GET" ∧ endpoint = "traffic/insights") then
    serve_route BInsights get_insights
  else if decide (method = "POST" ∧ endpoint = "traffic/pause") then
    serve_route BResp pause_simulation
  else if decide (method = "POST" ∧ endpoint = "traffic/resume") then
    serve_route BResp resume_simulation
  else if decide (method = "POST" ∧ endpoint = "traffic/manual") then
    match data with
    | Some direction => serve_route BResp (set_manual_control direction)
    | None => λ s, (unprocessable fw, s)
    end
  else if decide (method = "POST" ∧ endpoint = "traffic/auto") then
    serve_route BResp set_auto_mode
  else if decide (method = "POST" ∧ endpoint = "traffic/reset") then
    serve_route BResp reset_simulation
  else λ s, (no_route fw method endpoint, s).

(** ** The API tester (backend_test.py) *)

(** One entry of [failed_tests]; the response text kept by the first kind
    is represented by the body. *)
Inductive Failure :=
| StatusFailure (test : string) (expected actual : Z) (response : Body)
| ErrorFailure (test : string) (error : string).

Record Tester := mkTester {
  tests_run : nat;
  tests_passed : nat;
  failed_tests : list Failure
}.

(** What happens to one request on the way: it is answered, it never
    reaches the application, or it is handled but the answer does not come
    back in time.  In the last two cases [requests] raises. *)
Inductive Net :=
| Delivered
| Dropped (error : string)
| TimedOut (error : string).

(** The surroundings of the k-th request of a tester. *)
Record Env := mkEnv {
  net : Net;
  inputs : Inputs
}.

(** The tester and the application it talks to. *)
Record World := mkWorld {
  tester : Tester;
  server : State
}.

Definition T (A : Type) : Type := World → Res A * World.

#[global] Instance T_ret : MRet T := λ A a w, (Ok a, w).
#[global] Instance T_bind : MBind T := λ A B k m w,
  match m w with
  | (Ok a, w') => k a w'
  | (Raise e, w') => (Raise e, w')
  end.

(** [response.json()]: the body, or an exception for plain text, which the
    bare [except] of [run_test] turns into the empty dictionary. *)
Definition json_or_empty (b : Body) : Body :=
  match b with
  | BText _ => BEmpty
  | _ => b
  end.

(** [key in data] for a response dictionary. *)
Definition body_keys (b : Body) : list string :=
  match b with
  | BEmpty | BText _ => []
  | BRoot _ => ["message"]
  | BState _ => ["north"; "south"; "east"; "west"; "current_green";
                 "is_paused"; "is_manual"; "cycle_count"]
  | BResp (Message _) => ["message"]
  | BResp (MessagePaused _ _) => ["message"; "is_paused"]
  | BResp (MessageManual _ _) => ["message"; "is_manual"]
  | BResp (MessageTraffic _ _) => ["message"; "traffic_data"]
  | BResp (CycleResult _ _ _) => ["traffic_data"; "current_green"; "insight"]
  | BInsights _ => ["insights"]
  | BDetail _ => ["detail"]
  end.

Definition has_key (b : Body) (k : string) : bool := bool_decide (k ∈ body_keys b).

(** [data['traffic_data'][direction]] *)
Definition body_traffic_item (b : Body) (direction : string) : Res Approach :=
  match b with
  | BResp (MessageTraffic _ td) | BResp (CycleResult td _ _) =>
      match td !! direction with
      | Some a => Ok a
      | None => Raise (KeyError direction)
      end
  | _ => Raise (KeyError "traffic_data")
  end.

Definition lower_ascii (c : ascii) : ascii :=
  let n := nat_of_ascii c in
  if (65 <=? n)%nat && (n <=? 90)%nat then ascii_of_nat (n + 32) else c.

Fixpoint lower (s : string) : string :=
  match s with
  | EmptyString => EmptyString
  | String c s' => String (lower_ascii c) (lower s')
  end.

(** [s.capitalize()] on ASCII text. *)
Definition capitalize (s : string) : string :=
  match s with
  | EmptyString => EmptyString
  | String c s' => String (upper_ascii c) (lower s')
  end.

Definition count_run (t : Tester) : Tester :=
  mkTester (S (tests_run t)) (tests_passed t) (failed_tests t).
Definition count_passed (t : Tester) : Tester :=
  mkTester (tests_run t) (S (tests_passed t)) (failed_tests t).
Definition record_failure (f : Failure) (t : Tester) : Tester :=
  mkTester (tests_run t) (tests_passed t) (failed_tests t ++ [f])%list.

(** backend_test.py, lines 15-57.  The request is the one numbered by
    [tests_run] before the call.  A method other than GET and POST leaves
    [response] unbound, which raises inside [try]; the wording of that
    error depends on the interpreter and is only stored. *)
Definition run_test (fw : Framework) (envs : nat → Env)
    (name method endpoint : string) (expected_status : Z) (data : option string)
    : T (bool * Body) :=
  λ w,
    let env := envs (tests_run (tester w)) in
    let t := count_run (tester w) in
    if decide (method = "GET" ∨ method = "POST") then
      match net env with
      | Delivered =>
          let '(response, s') := api_router fw (inputs env) method endpoint data (server w) in
          if status response =? expected_status then
            (Ok (true, json_or_empty (content response)), mkWorld (count_passed t) s')
          else
            (Ok (false, BEmpty),
             mkWorld (record_failure
                        (StatusFailure name expected_status (status response) (content response))
                        t) s')
      | Dropped error =>
          (Ok (false, BEmpty), mkWorld (record_failure (ErrorFailure name error) t) (server w))
      | TimedOut error =>
          let '(_, s') := api_router fw (inputs env) method endpoint data (server w) in
          (Ok (false, BEmpty), mkWorld (record_failure (ErrorFailure name error) t) s')
      end
    else
      (Ok (false, BEmpty),
       mkWorld (record_failure
                  (ErrorFailure name "local variable 'response' referenced before assignment")
                  t) (server w)).

Definition lift_t {A} (r : Res A) : T A := λ w, (r, w).

Definition test_root_endpoint (fw : Framework) (envs : nat → Env) : T (bool * Body) :=
  run_test fw envs "API Root" "GET" "" 200 None.

Definition required_fields : list string :=
  ["north"; "south"; "east"; "west"; "current_green"; "is_paused"; "is_manual"; "cycle_count"].

Definition test_get_current_traffic (fw : Framework) (envs : nat → Env) : T bool :=
  run_test fw envs "Get Current Traffic" "GET" "traffic/current" 200 None ≫= λ r : bool * Body,
  let success := r.1 in
  let data := r.2 in
  if success then
    if forallb (has_key data) required_fields then mret success else mret false
  else mret success.

Definition test_traffic_update (fw : Framework) (envs : nat → Env) : T bool :=
  run_test fw envs "Traffic Update" "POST" "traffic/update" 200 None ≫= λ r : bool * Body,
  let success := r.1 in
  let data := r.2 in
  if success then
    if has_key data "traffic_data" then mret true else mret false
  else mret success.

Definition test_pause_resume_simulation (fw : Framework) (envs : nat → Env) : T bool :=
  run_test fw envs "Pause Simulation" "POST" "traffic/pause" 200 None ≫= λ r : bool * Body,
  let pause_success := r.1 in
  if negb pause_success then mret false
  else
    run_test fw envs "Resume Simulation" "POST" "traffic/resume" 200 None ≫= λ r : bool * Body,
    let resume_success := r.1 in
    mret resume_success.

(** The loop of [test_manual_control] over the remaining directions. *)
Fixpoint manual_control_loop (fw : Framework) (envs : nat → Env) (ds : list string) : T bool :=
  match ds with
  | [] => mret true
  | direction :: ds' =>
      run_test fw envs ("Manual Control - " ++ capitalize direction)
             "POST" "traffic/manual" 200 (Some direction) ≫= λ r : bool * Body,
      let success := r.1 in
      let data := r.2 in
      if negb success then mret false
      else if has_key data "traffic_data" then
        a ← lift_t (body_traffic_item data direction);
        if decide (signal a = "green") then manual_control_loop fw envs ds'
        else mret false
      else manual_control_loop fw envs ds'
  end.

Definition test_manual_control (fw : Framework) (envs : nat → Env) : T bool :=
  manual_control_loop fw envs ["north"; "south"; "east"; "west"].

Definition test_auto_mode (fw : Framework) (envs : nat → Env) : T (bool * Body) :=
  run_test fw envs "Switch to Auto Mode" "POST" "traffic/auto" 200 None.

(** The loop of [test_reset_simulation]: [None] when it runs to the end,
    [Some false] for the early return. *)
Fixpoint reset_check_loop (data : Body) (ds : list string) : Res (option bool) :=
  match ds with
  | [] => Ok None
  | direction :: ds' =>
      match body_traffic_item data direction with
      | Ok a => if decide (vehicles a ≠ 0) then Ok (Some false) else reset_check_loop data ds'
      | Raise e => Raise e
      end
  end.

Definition test_reset_simulation (fw : Framework) (envs : nat → Env) : T bool :=
  run_test fw envs "Reset Simulation" "POST" "traffic/reset" 200 None ≫= λ r : bool * Body,
  let success := r.1 in
  let data := r.2 in
  if success && has_key data "traffic_data" then
    early ← lift_t (reset_check_loop data ["north"; "south"; "east"; "west"]);
    match early with
    | Some b => mret b
    | None => mret success
    end
  else mret success.

Definition test_get_insights (fw : Framework) (envs : nat → Env) : T (bool * Body) :=
  run_test fw envs "Get AI Insights" "GET" "traffic/insights" 200 None.

Definition test_invalid_manual_direction (fw : Framework) (envs : nat → Env) : T (bool * Body) :=
  run_test fw envs "Invalid Manual Direction" "POST" "traffic/manual" 400 (Some "invalid").

(** [self.tests_passed == self.tests_run] *)
Definition all_passed : T bool :=
  λ w, (Ok (bool_decide (tests_passed (tester w) = tests_run (tester w))), w).

(** backend_test.py, lines 159-193. *)
Definition run_all_tests (fw : Framework) (envs : nat → Env) : T bool :=
  test_root_endpoint fw envs ;;
  test_get_current_traffic fw envs ;;
  test_traffic_update fw envs ;;
  test_get_insights fw envs ;;
  test_pause_resume_simulation fw envs ;;
  test_manual_control fw envs ;;
  test_auto_mode fw envs ;;
  test_reset_simulation fw envs ;;
  test_invalid_manual_direction fw envs ;;
  all_passed.

(** The tester as constructed by [__init__]. *)
Definition new_tester : Tester := mkTester 0 0 [].

(** backend_test.py, lines 195-198: the exit status. *)
Definition main (fw : Framework) (envs : nat → Env) (s : State) : Res Z * World :=
  match run_all_tests fw envs (mkWorld new_tester s) with
  | (Ok success, w) => (Ok (if success then 0 else 1), w)
  | (Raise e, w) => (Raise e, w)
  end.

(** The tester's books balance: every counted request was either passed or
    recorded as failed. *)
Definition balanced (w : World) : Prop :=
  (tests_passed (tester w) + length (failed_tests (tester w)) = tests_run (tester w))%nat.

(** A computation keeps a property of the world, also when it raises. *)
Definition keeps {A} (I : World → Prop) (m : T A) : Prop :=
  ∀ w, I w → I (m w).2.

(** Example surroundings: a framework answering 404 and 422, every request
    delivered, the collaborators of [demo_inputs]. *)
Definition demo_framework : Framework := {|
  no_route := λ _ _, mkHttpResponse 404 (BDetail "Not Found");
  unprocessable := mkHttpResponse 422 (BDetail "Unprocessable Entity")
|}.

Definition demo_envs : nat → Env := λ _, mkEnv Delivered demo_inputs.

(** The tester after [n] more requests that all passed. *)
Definition advance (n : nat) (t : Tester) : Tester :=
  mkTester (n + tests_run t) (n + tests_passed t) (failed_tests t).

(** ** Running the loops *)

Lemma directions_elem d :
  d ∈ directions ↔ d = "north" ∨ d = "south" ∨ d = "east" ∨ d = "west".
Proof. unfold directions. rewrite !elem_of_cons, elem_of_nil. tauto. Qed.

Lemma well_formed_lookups td :
  well_formed td →
  ∃ an as_ ae aw,
    td !! "north" = Some an ∧ td !! "south" = Some as_ ∧
    td !! "east" = Some ae ∧ td !! "west" = Some aw.
Proof.
  unfold well_formed, directions. intros H.
  rewrite !Forall_cons in H.
  destruct H as ([an Hn] & [as_ Hs] & [ae He] & [aw Hw] & _).
  by exists an, as_, ae, aw.
Qed.

Lemma well_formed_initial : well_formed (traffic_data simulation_state).
Proof. unfold well_formed, directions. repeat constructor; by eexists. Qed.

Lemma set_signal_run s d v a :
  traffic_data s !! d = Some a →
  set_signal d v s =
    (Ok tt, with_traffic_data (<[d := mkApproach (vehicles a) v]> (traffic_data s)) s).
Proof. intros H. unfold set_signal. by rewrite H. Qed.

Lemma set_vehicles_run s d c a :
  traffic_data s !! d = Some a →
  set_vehicles d c s =
    (Ok tt, with_traffic_data (<[d := mkApproach c (signal a)]> (traffic_data s)) s).
Proof. intros H. unfold set_vehicles. by rewrite H. Qed.

Lemma bind_run {A B} (m : M A) (k : A → M B) s a s' :
  m s = (Ok a, s') → (m ≫= k) s = k a s'.
Proof. intros H. unfold mbind, M_bind. by rewrite H. Qed.

Lemma bind_lift {A B} (r : Res A) (k : A → M B) s a :
  r = Ok a → (lift r ≫= k) s = k a s.
Proof. by intros ->. Qed.

Lemma signal_body_run g s d a :
  traffic_data s !! d = Some a →
  (if decide (d = g) then set_signal d "green" else set_signal d "red") s =
    (Ok tt, with_traffic_data (<[d := mkApproach (vehicles a) (colour_for g d)]> (traffic_data s)) s).
Proof.
  intros H. unfold colour_for. case_decide; by apply set_signal_run.
Qed.

(** Looking up a direction below inserts at other directions. *)
Ltac lookup_below := simpl; rewrite ?lookup_insert_ne by done; eassumption.

Lemma update_signals_run g s :
  well_formed (traffic_data s) →
  ∃ td', update_signals g s = (Ok tt, with_traffic_data td' s) ∧
    ∀ d, td' !! d =
      if decide (d ∈ directions)
      then (λ a, mkApproach (vehicles a) (colour_for g d)) <$> traffic_data s !! d
      else traffic_data s !! d.
Proof.
  intros Hwf. destruct (well_formed_lookups _ Hwf) as (an & as_ & ae & aw & Hn & Hs & He & Hw).
  eexists. split.
  - unfold update_signals, directions, for_each, mbind, M_bind, mret, M_ret.
    erewrite signal_body_run by lookup_below.
    erewrite signal_body_run by lookup_below.
    erewrite signal_body_run by lookup_below.
    erewrite signal_body_run by lookup_below.
    simpl. destruct s; reflexivity.
  - intros d. case_decide as Hd.
    + apply directions_elem in Hd.
      destruct Hd as [-> | [-> | [-> | ->]]];
        rewrite ?lookup_insert_ne by done; rewrite lookup_insert_eq;
        rewrite ?Hn, ?Hs, ?He, ?Hw; reflexivity.
    + rewrite directions_elem in Hd.
      rewrite !lookup_insert_ne; [done | ..]; intros <-; tauto.
Qed.

Lemma draw_counts_run inp s :
  well_formed (traffic_data s) →
  ∃ td', draw_counts inp 0 directions [] s
           = (Ok (drawn_counts inp), with_traffic_data td' s) ∧
    ∀ d, td' !! d =
      match dict_get (drawn_counts inp) d with
      | Some c => (λ a, mkApproach c (signal a)) <$> traffic_data s !! d
      | None => traffic_data s !! d
      end.
Proof.
  intros Hwf. destruct (well_formed_lookups _ Hwf) as (an & as_ & ae & aw & Hn & Hs & He & Hw).
  eexists. split.
  - unfold directions, draw_counts, mbind, M_bind, mret, M_ret.
    erewrite set_vehicles_run by lookup_below.
    erewrite set_vehicles_run by lookup_below.
    erewrite set_vehicles_run by lookup_below.
    erewrite set_vehicles_run by lookup_below.
    simpl. destruct s; reflexivity.
  - intros d. unfold drawn_counts, dict_get.
    repeat case_decide; subst;
      rewrite ?lookup_insert_ne by done; rewrite ?lookup_insert_eq;
      rewrite ?Hn, ?Hs, ?He, ?Hw; reflexivity.
Qed.

(** ** [max] returns the first maximum *)

Section PyMax.
Variable key : string → option Z.

Lemma max_scan_spec rest : ∀ best b,
  key best = Some b →
  Forall (λ x, is_Some (key x)) rest →
  ∃ g c, max_scan key best (Some b) rest = Ok g ∧ key g = Some c ∧ b ≤ c ∧
    Forall (λ x, ∃ c', key x = Some c' ∧ c' ≤ c) rest ∧
    ((g = best ∧ c = b) ∨
     (∃ i, rest !! i = Some g ∧ b < c ∧
        ∀ j d, (j < i)%nat → rest !! j = Some d → ∃ c', key d = Some c' ∧ c' < c)).
Proof.
  induction rest as [|item rest' IH]; intros best b Hbest Hall.
  - exists best, b. split_and!; [done | done | lia | done | by left].
  - apply Forall_cons in Hall as [[v Hv] Hall]. simpl. rewrite Hv.
    destruct (Z.gtb_spec v b) as [Hgt|Hle].
    + destruct (IH item v Hv Hall) as (g & c & Hrun & Hg & Hvc & Hle & Hfirst).
      exists g, c. split_and!; [done | done | lia | | ].
      { constructor; [by exists v | done]. }
      right. destruct Hfirst as [[-> ->] | (i & Hi & Hlt & Hbefore)].
      * exists 0%nat. split_and!; [done | lia | intros; lia].
      * exists (S i). split_and!; [done | lia |].
        intros [|j] d Hj Hd; simpl in Hd.
        -- simplify_eq. exists v. split; [done | lia].
        -- apply (Hbefore j); [lia | done].
    + destruct (IH best b Hbest Hall) as (g & c & Hrun & Hg & Hbc & Hle' & Hfirst).
      exists g, c. split_and!; [done | done | done | | ].
      { constructor; [exists v; split; [done | lia] | done]. }
      destruct Hfirst as [[-> ->] | (i & Hi & Hlt & Hbefore)]; [by left |].
      right. exists (S i). split_and!; [done | done |].
      intros [|j] d Hj Hd; simpl in Hd.
      * simplify_eq. exists v. split; [done | lia].
      * apply (Hbefore j); [lia | done].
Qed.

Lemma py_max_first_max l :
  l ≠ [] →
  Forall (λ x, is_Some (key x)) l →
  ∃ g, py_max l key = Ok g ∧ first_max key l g.
Proof.
  destruct l as [|item rest]; [done | intros _ Hall].
  apply Forall_cons in Hall as [[b Hb] Hall].
  destruct (max_scan_spec rest item b Hb Hall) as (g & c & Hrun & Hg & Hbc & Hle & Hfirst).
  exists g. split; [simpl; by rewrite Hb |].
  assert (Hall_le : ∀ j d, (item :: rest) !! j = Some d → ∃ c', key d = Some c' ∧ c' ≤ c).
  { intros [|j] d Hd; simpl in Hd.
    - simplify_eq. by exists b.
    - by apply (proj1 (Forall_lookup _ _) Hle j). }
  destruct Hfirst as [[-> ->] | (i & Hi & Hlt & Hbefore)].
  - exists 0%nat, b. split_and!; [done | done | done | intros; lia].
  - exists (S i), c. split_and!; [done | done | done |].
    intros [|j] d Hj Hd; simpl in Hd.
    + simplify_eq. exists b. split; [done | lia].
    + apply (Hbefore j); [lia | done].
Qed.
End PyMax.

Lemma dict_get_drawn inp :
  dict_keys (drawn_counts inp) = directions ∧
  Forall (λ x, is_Some (dict_get (drawn_counts inp) x)) directions.
Proof. split; [done |]. unfold directions. repeat constructor; by eexists. Qed.

(** ** Running [update_traffic] *)

Lemma store_insight_take insight s :
  store_insight insight s = with_insights (take 10 (insight :: insights s)) s.
Proof.
  unfold store_insight. destruct (Nat.ltb_spec 10 (length (insight :: insights s))) as [H|H].
  - done.
  - by rewrite (take_ge (insight :: insights s)) by lia.
Qed.

Lemma update_traffic_skip inp s :
  skipped s = true → update_traffic inp s = (Ok (Message skipped_message), s).
Proof.
  unfold skipped. intros H. unfold update_traffic.
  rewrite (bind_run get _ s s s eq_refl). by rewrite H.
Qed.

Lemma update_traffic_run inp s :
  skipped s = false →
  well_formed (traffic_data s) →
  ∃ g c td',
    first_max (dict_get (drawn_counts inp)) directions g ∧
    dict_get (drawn_counts inp) g = Some c ∧
    update_traffic inp s =
      (Ok (CycleResult td' g (insight_of inp g c)),
       mkState (is_paused s) (is_manual s) g td'
         (take 10 (insight_of inp g c :: insights s)) (cycle_count s + 1)) ∧
    ∀ d, td' !! d =
      match dict_get (drawn_counts inp) d with
      | Some c' => (λ _, mkApproach c' (colour_for g d)) <$> traffic_data s !! d
      | None => traffic_data s !! d
      end.
Proof.
  intros Hskip Hwf.
  destruct (draw_counts_run inp s Hwf) as (td1 & Hdraw & Htd1).
  destruct (dict_get_drawn inp) as [Hkeys Hsome].
  destruct (py_max_first_max (dict_get (drawn_counts inp)) directions) as (g & Hmax & Hfirst);
    [done | done |].
  assert (Hc : ∃ c, dict_get (drawn_counts inp) g = Some c).
  { destruct Hfirst as (i & c & _ & Hc & _). by exists c. }
  destruct Hc as [c Hc].
  assert (Hwf1 : well_formed (traffic_data (with_traffic_data td1 s))).
  { unfold well_formed in *. rewrite Forall_forall in Hwf |- *. intros d Hd. simpl.
    rewrite Htd1. destruct (Hwf d Hd) as [a ->]. by destruct (dict_get _ d). }
  destruct (update_signals_run g _ Hwf1) as (td2 & Hsig & Htd2). simpl in Htd2.
  exists g, c, td2. split_and!; [done | done | |].
  - unfold update_traffic.
    rewrite (bind_run get _ s s s eq_refl).
    unfold skipped in Hskip. rewrite Hskip.
    rewrite (bind_run _ _ _ _ _ Hdraw). cbv beta.
    rewrite Hkeys.
    rewrite (bind_lift _ _ _ _ Hmax). cbv beta.
    rewrite (bind_lift (dict_item _ _) _ _ c) by (unfold dict_item; by rewrite Hc). cbv beta.
    rewrite (bind_run _ _ _ _ _ Hsig). cbv beta.
    unfold mbind, M_bind, modify, get, mret, M_ret.
    rewrite store_insight_take. destruct s; reflexivity.
  - intros d. rewrite Htd2, Htd1.
    destruct (dict_get (drawn_counts inp) d) as [c'|] eqn:Hd.
    + case_decide as Hin.
      * by destruct (traffic_data s !! d).
      * exfalso. apply Hin. apply directions_elem. revert Hd.
        unfold drawn_counts, dict_get. repeat case_decide; subst; (tauto || done).
    + case_decide as Hin; [|done].
      exfalso. rewrite Forall_forall in Hsome. destruct (Hsome d Hin) as [? ?]. congruence.
Qed.

(** ** Running [set_manual_control] and [reset_simulation] *)

Lemma set_manual_control_run d s :
  d ∈ directions →
  well_formed (traffic_data s) →
  ∃ td',
    set_manual_control d s =
      (Ok (MessageTraffic ("Manual control: " ++ d ++ " set to green") td'),
       mkState (is_paused s) true d td' (insights s) (cycle_count s)) ∧
    ∀ k, td' !! k =
      if decide (k ∈ directions)
      then (λ a, mkApproach (vehicles a) (colour_for d k)) <$> traffic_data s !! k
      else traffic_data s !! k.
Proof.
  intros Hd Hwf.
  destruct (update_signals_run d (with_is_manual true s) Hwf) as (td' & Hsig & Htd').
  exists td'. split; [|exact Htd'].
  unfold set_manual_control. rewrite decide_True by done.
  rewrite (bind_run (modify _) _ s tt (with_is_manual true s) eq_refl).
  rewrite (bind_run _ _ _ _ _ Hsig).
  destruct s; reflexivity.
Qed.

Lemma set_manual_control_reject d s :
  d ∉ directions →
  set_manual_control d s = (Raise (HTTPException 400 "Invalid direction"), s).
Proof. intros Hd. unfold set_manual_control. by rewrite decide_False. Qed.

Lemma reset_simulation_run s :
  ∃ td',
    reset_simulation s =
      (Ok (MessageTraffic "Simulation reset" td'), mkState false false "north" td' [] 0) ∧
    ∀ k, td' !! k =
      if decide (k ∈ directions) then Some (mkApproach 0 "red") else traffic_data s !! k.
Proof.
  eexists. split.
  - destruct s; reflexivity.
  - intros k. simpl. case_decide as Hk; rewrite directions_elem in Hk.
    + destruct Hk as [-> | [-> | [-> | ->]]];
        rewrite ?lookup_insert_ne by done; by rewrite lookup_insert_eq.
    + rewrite !lookup_insert_ne; [done | ..]; intros <-; tauto.
Qed.

(** ** Signals after the signal loop *)

Lemma filter_agree {A} (P Q : A → Prop)
    `{!∀ x, Decision (P x)} `{!∀ x, Decision (Q x)} (l : list A) :
  Forall (λ x, P x ↔ Q x) l → filter P l = filter Q l.
Proof.
  induction 1 as [|x l Hx _ IH]; [done |].
  rewrite !filter_cons, IH. repeat case_decide; [done | tauto | tauto | done].
Qed.

Lemma signals_with_ext colour td1 td2 :
  (∀ d, d ∈ directions → signal <$> td1 !! d = signal <$> td2 !! d) →
  signals_with colour td1 = signals_with colour td2.
Proof.
  intros H. unfold signals_with. apply filter_agree.
  rewrite Forall_forall. intros d Hd. by rewrite (H d Hd).
Qed.

Lemma signals_with_painted g :
  g ∈ directions →
  signals_with "green" (painted g) = [g] ∧
  length (signals_with "red" (painted g)) = 3%nat.
Proof.
  intros Hg. apply directions_elem in Hg.
  destruct Hg as [-> | [-> | [-> | ->]]]; by vm_compute.
Qed.

Lemma painted_lookup g d :
  d ∈ directions → signal <$> painted g !! d = Some (colour_for g d).
Proof.
  intros Hd. apply directions_elem in Hd.
  destruct Hd as [-> | [-> | [-> | ->]]]; reflexivity.
Qed.

Lemma one_green_painted s g :
  g ∈ directions →
  current_green s = g →
  (∀ d, d ∈ directions → signal <$> traffic_data s !! d = Some (colour_for g d)) →
  one_green s.
Proof.
  intros Hg Hcur Hsig. unfold one_green. rewrite Hcur.
  rewrite !(signals_with_ext _ (traffic_data s) (painted g)).
  - by apply signals_with_painted.
  - intros d Hd. by rewrite Hsig, painted_lookup.
  - intros d Hd. by rewrite Hsig, painted_lookup.
Qed.

(** ** Invariants of the reachable states *)

Lemma well_formed_painted (f : string → Approach → Approach) td td' :
  well_formed td →
  (∀ d, d ∈ directions → td' !! d = f d <$> td !! d) →
  well_formed td'.
Proof.
  unfold well_formed. rewrite !Forall_forall. intros Hwf H d Hd.
  rewrite (H d Hd). destruct (Hwf d Hd) as [a ->]. by eexists.
Qed.

Lemma handle_well_formed r s :
  well_formed (traffic_data s) → well_formed (traffic_data (handle r s).2).
Proof.
  intros Hwf. destruct r as [inp| | |d| |]; cbn [handle]; try exact Hwf.
  - destruct (skipped s) eqn:Hskip.
    + by rewrite update_traffic_skip.
    + destruct (update_traffic_run inp s Hskip Hwf) as (g & c & td' & _ & _ & -> & Htd').
      simpl. unfold well_formed in *. rewrite Forall_forall in Hwf |- *.
      intros d Hd. rewrite Htd'. destruct (Hwf d Hd) as [a ->].
      by destruct (dict_get _ d).
  - destruct (decide (d ∈ directions)) as [Hd|Hd].
    + destruct (set_manual_control_run d s Hd Hwf) as (td' & -> & Htd'). simpl.
      apply (well_formed_painted (λ k a, mkApproach (vehicles a) (colour_for d k)) _ _ Hwf).
      intros k Hk. by rewrite Htd', decide_True.
    + by rewrite set_manual_control_reject.
  - destruct (reset_simulation_run s) as (td' & -> & Htd'). simpl.
    unfold well_formed. rewrite Forall_forall. intros d Hd.
    rewrite Htd', decide_True by done. by eexists.
Qed.

Lemma serve_well_formed rs : ∀ s,
  well_formed (traffic_data s) → well_formed (traffic_data (serve rs s)).
Proof.
  induction rs as [|r rs IH]; intros s Hwf; simpl; [done |].
  by apply IH, handle_well_formed.
Qed.

(** The first maximum is one of the directions. *)
Lemma first_max_in f l g : first_max f l g → g ∈ l.
Proof. intros (i & c & Hi & _). by eapply list_elem_of_lookup_2. Qed.

(** A completed cycle and a manual override establish the signal invariant;
    the flag handlers and a skipped cycle leave the signals as they are. *)
Lemma update_traffic_one_green inp s :
  skipped s = false →
  well_formed (traffic_data s) →
  one_green (update_traffic inp s).2.
Proof.
  intros Hskip Hwf.
  destruct (update_traffic_run inp s Hskip Hwf) as (g & c & td' & Hmax & _ & -> & Htd').
  simpl. apply (one_green_painted _ g); [by eapply first_max_in | done |].
  intros d Hd. simpl. rewrite Htd'.
  unfold well_formed in Hwf. rewrite Forall_forall in Hwf. destruct (Hwf d Hd) as [a ->].
  destruct (dict_get_drawn inp) as [_ Hsome]. rewrite Forall_forall in Hsome.
  by destruct (Hsome d Hd) as [c' ->].
Qed.

Lemma set_manual_control_one_green d s :
  d ∈ directions →
  well_formed (traffic_data s) →
  one_green (set_manual_control d s).2.
Proof.
  intros Hd Hwf. destruct (set_manual_control_run d s Hd Hwf) as (td' & -> & Htd').
  simpl. apply (one_green_painted _ d); [done | done |].
  intros k Hk. simpl. rewrite Htd', decide_True by done.
  unfold well_formed in Hwf. rewrite Forall_forall in Hwf. by destruct (Hwf k Hk) as [a ->].
Qed.

Lemma flag_handlers_one_green s :
  one_green s →
  one_green (pause_simulation s).2 ∧ one_green (resume_simulation s).2 ∧
  one_green (set_auto_mode s).2.
Proof. by destruct s. Qed.

(** * The claims *)

(** C1.  The claim asks that in the initial state and after every mutating
    handler exactly one approach be green, the one named by
    [current_green].  The module-level literal and [reset_simulation] write
    ["red"] for all four directions while setting [current_green] to
    ["north"]: in the initial state and after a reset from any state no
    approach is green, all four are red, and [current_green] is ["north"]. *)
Theorem initial_and_reset_have_no_green s :
  signals_with "green" (traffic_data simulation_state) = [] ∧
  signals_with "red" (traffic_data simulation_state) = directions ∧
  current_green simulation_state = "north" ∧
  signals_with "green" (traffic_data (reset_simulation s).2) = [] ∧
  signals_with "red" (traffic_data (reset_simulation s).2) = directions ∧
  current_green (reset_simulation s).2 = "north".
Proof.
  split_and!; try reflexivity.
  - destruct (reset_simulation_run s) as (td' & -> & Htd'). simpl.
    rewrite (signals_with_ext _ td' (traffic_data simulation_state)); [reflexivity |].
    intros d Hd. rewrite Htd', decide_True by done.
    apply directions_elem in Hd.
    by destruct Hd as [-> | [-> | [-> | ->]]].
  - destruct (reset_simulation_run s) as (td' & -> & Htd'). simpl.
    rewrite (signals_with_ext _ td' (traffic_data simulation_state)); [reflexivity |].
    intros d Hd. rewrite Htd', decide_True by done.
    apply directions_elem in Hd.
    by destruct Hd as [-> | [-> | [-> | ->]]].
Qed.

(** C2.  [reset_simulation] always succeeds and, from every prior state,
    clears both flags, sets [current_green] to ["north"], [cycle_count] to
    0, [insights] to the empty list and every direction's vehicle count to
    0; the signal it writes for ["north"] is ["red"], like the other three,
    not ["green"] as the claim says. *)
Theorem reset_simulation_writes_north_red s :
  (∃ td, (reset_simulation s).1 = Ok (MessageTraffic "Simulation reset" td)) ∧
  is_paused (reset_simulation s).2 = false ∧
  is_manual (reset_simulation s).2 = false ∧
  current_green (reset_simulation s).2 = "north" ∧
  cycle_count (reset_simulation s).2 = 0 ∧
  insights (reset_simulation s).2 = [] ∧
  traffic_data (reset_simulation s).2 !! "north" = Some (mkApproach 0 "red") ∧
  traffic_data (reset_simulation s).2 !! "south" = Some (mkApproach 0 "red") ∧
  traffic_data (reset_simulation s).2 !! "east" = Some (mkApproach 0 "red") ∧
  traffic_data (reset_simulation s).2 !! "west" = Some (mkApproach 0 "red").
Proof.
  destruct (reset_simulation_run s) as (td' & -> & Htd'). simpl.
  split_and!; try done; try by eexists.
  all: by rewrite Htd'.
Qed.

(** From a reached state a reset gives back the module-level literal. *)
Example reset_restores_literal :
  (reset_simulation
     (serve [ReqUpdate demo_inputs; ReqManual "east"; ReqPause] simulation_state)).2
  = simulation_state.
Proof. by vm_compute. Qed.

(** C4.  When [is_paused] or [is_manual] is set, [update_traffic] returns
    the skipped message and the whole state, hence [traffic_data],
    [current_green], [cycle_count] and [insights], is unchanged. *)
Theorem update_traffic_skipped_is_noop inp s :
  is_paused s = true ∨ is_manual s = true →
  update_traffic inp s = (Ok (Message skipped_message), s) ∧
  traffic_data (update_traffic inp s).2 = traffic_data s ∧
  current_green (update_traffic inp s).2 = current_green s ∧
  cycle_count (update_traffic inp s).2 = cycle_count s ∧
  insights (update_traffic inp s).2 = insights s.
Proof.
  intros H. assert (Hskip : skipped s = true).
  { unfold skipped. destruct H as [-> | ->]; [done | by rewrite orb_true_r]. }
  by rewrite update_traffic_skip.
Qed.

Lemma update_traffic_skipped_is_noop_witness :
  let s := with_is_manual true simulation_state in
  (is_paused s = true ∨ is_manual s = true) ∧
  update_traffic demo_inputs s = (Ok (Message skipped_message), s) ∧
  traffic_data (update_traffic demo_inputs s).2 = traffic_data s ∧
  current_green (update_traffic demo_inputs s).2 = current_green s ∧
  cycle_count (update_traffic demo_inputs s).2 = cycle_count s ∧
  insights (update_traffic demo_inputs s).2 = insights s.
Proof.
  split; [right; reflexivity |].
  apply (update_traffic_skipped_is_noop demo_inputs (with_is_manual true simulation_state)).
  right; reflexivity.
Defined.

(** C7.  A direction outside [["north", "south", "east", "west"]] makes
    [set_manual_control] raise [HTTPException] with status 400 before any
    write: the state is unchanged. *)
Theorem set_manual_control_rejects_invalid d s :
  d ∉ directions →
  set_manual_control d s = (Raise (HTTPException 400 "Invalid direction"), s).
Proof. apply set_manual_control_reject. Qed.

Lemma set_manual_control_rejects_invalid_witness :
("northeast" ∉ directions) ∧
  set_manual_control "northeast" simulation_state
    = (Raise (HTTPException 400 "Invalid direction"), simulation_state).
Proof.
  assert (H : "northeast" ∉ directions).
  { rewrite directions_elem. intros [H | [H | [H | H]]]; discriminate H. }
  split; [exact H |].
  exact (set_manual_control_rejects_invalid "northeast" simulation_state H).
Defined.

(** C8.  For a valid direction [d] and a state holding all four approaches,
    [set_manual_control d] succeeds, sets [is_manual], makes [d] green and
    the other three red, sets [current_green] to [d], and leaves every
    vehicle count, [cycle_count], [insights] and [is_paused] unchanged. *)
Theorem set_manual_control_valid d s :
  d ∈ directions →
  well_formed (traffic_data s) →
  let s' := (set_manual_control d s).2 in
  (∃ resp, (set_manual_control d s).1 = Ok resp) ∧
  is_manual s' = true ∧
  signal <$> traffic_data s' !! d = Some "green" ∧
  (∀ k, k ∈ directions → k ≠ d → signal <$> traffic_data s' !! k = Some "red") ∧
  one_green s' ∧
  current_green s' = d ∧
  (∀ k, vehicles <$> traffic_data s' !! k = vehicles <$> traffic_data s !! k) ∧
  cycle_count s' = cycle_count s ∧
  insights s' = insights s ∧
  is_paused s' = is_paused s.
Proof.
  intros Hd Hwf s'. pose proof (set_manual_control_one_green d s Hd Hwf) as Hone.
  fold s' in Hone. revert Hone. subst s'.
  destruct (set_manual_control_run d s Hd Hwf) as (td' & -> & Htd'). simpl. intros Hone.
  unfold well_formed in Hwf. rewrite Forall_forall in Hwf.
  split_and!; try done.
  - by eexists.
  - rewrite Htd', decide_True by done. destruct (Hwf d Hd) as [a ->]. simpl.
    unfold colour_for. by rewrite decide_True.
  - intros k Hk Hne. rewrite Htd', decide_True by done. destruct (Hwf k Hk) as [a ->].
    simpl. unfold colour_for. by rewrite decide_False.
  - intros k. rewrite Htd'. case_decide; [|done]. by destruct (traffic_data s !! k).
Qed.

Lemma set_manual_control_valid_witness :
  let s' := (set_manual_control "east" simulation_state).2 in
  "east" ∈ directions ∧ well_formed (traffic_data simulation_state) ∧
  current_green s' = "east" ∧
  signal <$> traffic_data s' !! "east" = Some "green" ∧
  signal <$> traffic_data s' !! "north" = Some "red" ∧
  signal <$> traffic_data s' !! "south" = Some "red" ∧
  signal <$> traffic_data s' !! "west" = Some "red" ∧
  is_manual s' = true ∧
  cycle_count s' = 0.
Proof.
  assert (He : "east" ∈ directions) by (apply directions_elem; tauto).
  destruct (set_manual_control_valid "east" simulation_state He well_formed_initial)
    as (_ & Hman & Hgreen & Hred & _ & Hcur & _ & Hcc & _).
  split_and!; [exact He | exact well_formed_initial | exact Hcur | exact Hgreen | | | | exact Hman | exact Hcc].
  - apply Hred; [apply directions_elem; tauto | discriminate].
  - apply Hred; [apply directions_elem; tauto | discriminate].
  - apply Hred; [apply directions_elem; tauto | discriminate].
Defined.

(** C10.  [pause_simulation] and [resume_simulation] write only
    [is_paused], [set_auto_mode] writes only [is_manual]; each succeeds and
    leaves [traffic_data], [current_green], [cycle_count], [insights] and
    the other flag as they were. *)
Theorem flag_handlers_frame s :
  (pause_simulation s = (Ok (MessagePaused "Simulation paused" true), with_is_paused true s) ∧
   is_paused (pause_simulation s).2 = true ∧
   is_manual (pause_simulation s).2 = is_manual s ∧
   traffic_data (pause_simulation s).2 = traffic_data s ∧
   current_green (pause_simulation s).2 = current_green s ∧
   cycle_count (pause_simulation s).2 = cycle_count s ∧
   insights (pause_simulation s).2 = insights s) ∧
  (resume_simulation s = (Ok (MessagePaused "Simulation resumed" false), with_is_paused false s) ∧
   is_paused (resume_simulation s).2 = false ∧
   is_manual (resume_simulation s).2 = is_manual s ∧
   traffic_data (resume_simulation s).2 = traffic_data s ∧
   current_green (resume_simulation s).2 = current_green s ∧
   cycle_count (resume_simulation s).2 = cycle_count s ∧
   insights (resume_simulation s).2 = insights s) ∧
  (set_auto_mode s = (Ok (MessageManual "Switched to automatic mode" false), with_is_manual false s) ∧
   is_manual (set_auto_mode s).2 = false ∧
   is_paused (set_auto_mode s).2 = is_paused s ∧
   traffic_data (set_auto_mode s).2 = traffic_data s ∧
   current_green (set_auto_mode s).2 = current_green s ∧
   cycle_count (set_auto_mode s).2 = cycle_count s ∧
   insights (set_auto_mode s).2 = insights s).
Proof. by destruct s. Qed.

Lemma dict_get_drawn_elem inp d c :
  dict_get (drawn_counts inp) d = Some c → d ∈ directions.
Proof.
  intros H. apply directions_elem. revert H.
  unfold drawn_counts, dict_get. repeat case_decide; subst; (tauto || done).
Qed.

(** C3.  A cycle that is not skipped selects the first maximum of the
    freshly drawn counts in the order north, south, east, west: no count is
    larger than the selected one and every earlier direction has a strictly
    smaller count.  A direction whose count is strictly the highest is the
    one selected, and the drawn counts north 30, south 30, east 10, west 5
    select north.  The drawn counts are the ones stored in the state. *)
Theorem update_traffic_selects_first_max inp s :
  skipped s = false →
  well_formed (traffic_data s) →
  let vc := drawn_counts inp in
  let s' := (update_traffic inp s).2 in
  ∃ g td' insight,
    (update_traffic inp s).1 = Ok (CycleResult td' g insight) ∧
    current_green s' = g ∧
    (∀ d c, dict_get vc d = Some c → vehicles <$> traffic_data s' !! d = Some c) ∧
    first_max (dict_get vc) directions g ∧
    (∀ d c, dict_get vc d = Some c →
       (∀ d' c', d' ≠ d → dict_get vc d' = Some c' → c' < c) → g = d) ∧
    (vc = [("north", 30); ("south", 30); ("east", 10); ("west", 5)] → g = "north").
Proof.
  intros Hskip Hwf vc s'. subst vc s'.
  destruct (update_traffic_run inp s Hskip Hwf) as (g & cg & td' & Hmax & Hg & -> & Htd').
  exists g, td', (insight_of inp g cg). cbn [fst snd current_green traffic_data].
  split_and!; [done | done | | done | |].
  - intros d c Hd. rewrite Htd', Hd.
    unfold well_formed in Hwf. rewrite Forall_forall in Hwf.
    by destruct (Hwf d (dict_get_drawn_elem _ _ _ Hd)) as [a ->].
  - intros d c Hd Hstrict. destruct (decide (g = d)) as [|Hne]; [done | exfalso].
    destruct Hmax as (i & cg' & Hi & Hg' & Hle & _).
    apply dict_get_drawn_elem in Hd as Hin.
    apply list_elem_of_lookup_1 in Hin as [j Hj].
    destruct (Hle j d Hj) as (c' & Hc' & Hle').
    pose proof (Hstrict g cg' Hne Hg'). simplify_eq. lia.
  - intros Hvc. destruct Hmax as (i & cg' & Hi & Hg' & _ & Hlt).
    rewrite Hvc in Hg', Hlt.
    destruct i as [|i]; [simpl in Hi; by simplify_eq | exfalso].
    destruct (Hlt 0%nat "north") as (c' & Hc' & Hlt'); [lia | done |].
    assert (c' = 30) as -> by (vm_compute in Hc'; by simplify_eq).
    destruct i as [|[|[|i]]]; simpl in Hi; simplify_eq; vm_compute in Hg'; simplify_eq; lia.
Qed.

Lemma update_traffic_selects_first_max_witness :
  skipped simulation_state = false ∧
  well_formed (traffic_data simulation_state) ∧
  drawn_counts demo_inputs = [("north", 30); ("south", 30); ("east", 10); ("west", 5)] ∧
  current_green (update_traffic demo_inputs simulation_state).2 = "north".
Proof.
  split_and!; [reflexivity | exact well_formed_initial | reflexivity |].
  destruct (update_traffic_selects_first_max demo_inputs simulation_state
              eq_refl well_formed_initial) as (g & td' & insight & _ & Hcur & _ & _ & _ & Hex).
  rewrite Hcur. apply Hex. reflexivity.
Defined.

Lemma generate_ai_explanation_fallback inp g c vc :
  (∀ prompt, ∃ e, send_message inp prompt = Raise e) →
  generate_ai_explanation inp g c vc = fallback_explanation g c.
Proof.
  intros Hfail. unfold generate_ai_explanation, mbind, Res_bind.
  repeat (match goal with |- context [dict_item ?d ?k] => destruct (dict_item d k) end;
          [|done]).
  by match goal with |- context [send_message inp ?p] => destruct (Hfail p) as [e ->] end.
Qed.

(** C5.  When the call to the language model raises, a cycle that is not
    skipped still returns normally, and the explanation of the insight it
    returns and stores is the fallback text built from the selected
    direction and its count. *)
Theorem provider_failure_falls_back inp s :
  skipped s = false →
  well_formed (traffic_data s) →
  (∀ prompt, ∃ e, send_message inp prompt = Raise e) →
  let s' := (update_traffic inp s).2 in
  ∃ g c td' insight,
    (update_traffic inp s).1 = Ok (CycleResult td' g insight) ∧
    current_green s' = g ∧
    vehicles <$> traffic_data s' !! g = Some c ∧
    dict_get (vehicle_counts insight) g = Some c ∧
    explanation insight =
      "Prioritizing " ++ g ++ " road with " ++ str c
        ++ " vehicles due to highest congestion." ∧
    head (insights s') = Some insight.
Proof.
  intros Hskip Hwf Hfail s'. subst s'.
  destruct (update_traffic_run inp s Hskip Hwf) as (g & c & td' & Hmax & Hg & -> & Htd').
  exists g, c, td', (insight_of inp g c).
  cbn [fst snd current_green traffic_data insights insight_of vehicle_counts explanation].
  split_and!; try done.
  - rewrite Htd', Hg.
    unfold well_formed in Hwf. rewrite Forall_forall in Hwf.
    by destruct (Hwf g (dict_get_drawn_elem _ _ _ Hg)) as [a ->].
  - by rewrite generate_ai_explanation_fallback.
Qed.

Lemma provider_failure_falls_back_witness :
  skipped simulation_state = false ∧
  well_formed (traffic_data simulation_state) ∧
  (∀ prompt, ∃ e, send_message demo_inputs prompt = Raise e) ∧
  ∃ g c td' insight,
    (update_traffic demo_inputs simulation_state).1 = Ok (CycleResult td' g insight) ∧
    current_green (update_traffic demo_inputs simulation_state).2 = g ∧
    vehicles <$> traffic_data (update_traffic demo_inputs simulation_state).2 !! g = Some c ∧
    dict_get (vehicle_counts insight) g = Some c ∧
    explanation insight =
      "Prioritizing " ++ g ++ " road with " ++ str c
        ++ " vehicles due to highest congestion." ∧
    head (insights (update_traffic demo_inputs simulation_state).2) = Some insight.
Proof.
  assert (Hfail : ∀ prompt, ∃ e, send_message demo_inputs prompt = Raise e).
  { intros prompt. by exists (ProviderError "timeout"). }
  split_and!; [reflexivity | exact well_formed_initial | exact Hfail |].
  exact (provider_failure_falls_back demo_inputs simulation_state
           eq_refl well_formed_initial Hfail).
Defined.

Example fallback_explanation_north_30 :
  fallback_explanation "north" 30
    = "Prioritizing north road with 30 vehicles due to highest congestion.".
Proof. reflexivity. Qed.

Lemma history_snoc rs r : ∀ s past,
  history (rs ++ [r]) s past = history [r] (serve rs s) (history rs s past).
Proof.
  induction rs as [|r' rs IH]; intros s past; [done |].
  cbn [app serve]. change (history (r' :: ?l) s past) with
    (history l (handle r' s).2
       (if is_reset r' then []
        else match (handle r' s).1 with
             | Ok (CycleResult _ _ insight) => insight :: past
             | _ => past
             end)).
  apply IH.
Qed.

Lemma take_cons_take {A} (x : A) (l : list A) n :
  take (S n) (x :: take (S n) l) = take (S n) (x :: l).
Proof. simpl. f_equal. rewrite take_take. f_equal. lia. Qed.

Lemma handle_history r s past :
  well_formed (traffic_data s) →
  insights s = take 10 past →
  insights (handle r s).2 = take 10 (history [r] s past).
Proof.
  intros Hwf Hpast. destruct r as [inp| | |d| |]; cbn [history is_reset handle]; try done.
  - destruct (skipped s) eqn:Hskip.
    + by rewrite update_traffic_skip.
    + destruct (update_traffic_run inp s Hskip Hwf) as (g & c & td' & _ & _ & -> & _).
      cbn [fst snd insights]. by rewrite Hpast, take_cons_take.
  - destruct (decide (d ∈ directions)) as [Hd|Hd].
    + by destruct (set_manual_control_run d s Hd Hwf) as (td' & -> & _).
    + by rewrite set_manual_control_reject.
Qed.

Lemma serve_history rs : ∀ s past,
  well_formed (traffic_data s) →
  insights s = take 10 past →
  insights (serve rs s) = take 10 (history rs s past).
Proof.
  induction rs as [|r rs IH]; intros s past Hwf Hpast; [done |].
  cbn [serve history]. apply IH; [by apply handle_well_formed |].
  exact (handle_history r s past Hwf Hpast).
Qed.

(** C6.  In every state reached from the initial one, [insights] is the
    list of the ten newest decisions since the last reset, newest first: it
    never has more than 10 entries, it has exactly 10 once 10 or more
    cycles have completed, and a cycle that is not skipped returns one
    insight and puts it in front, dropping what lies beyond the tenth. *)
Theorem insights_are_ten_newest rs :
  let s := serve rs simulation_state in
  let h := history rs simulation_state [] in
  insights s = take 10 h ∧
  (length (insights s) ≤ 10)%nat ∧
  ((10 ≤ length h)%nat → length (insights s) = 10%nat) ∧
  (∀ inp, skipped s = false →
     ∃ td g insight,
       (update_traffic inp s).1 = Ok (CycleResult td g insight) ∧
       history (rs ++ [ReqUpdate inp]) simulation_state [] = insight :: h ∧
       insights (update_traffic inp s).2 = take 10 (insight :: insights s)).
Proof.
  intros s h.
  assert (Hins : insights s = take 10 h).
  { apply serve_history; [exact well_formed_initial | done]. }
  split_and!; [done | | |].
  - rewrite Hins, length_take. lia.
  - intros Hlen. rewrite Hins, length_take. lia.
  - intros inp Hskip.
    assert (Hwf : well_formed (traffic_data s)).
    { apply serve_well_formed, well_formed_initial. }
    destruct (update_traffic_run inp s Hskip Hwf) as (g & c & td' & _ & _ & Hrun & _).
    exists td', g, (insight_of inp g c). split_and!; [by rewrite Hrun | | by rewrite Hrun].
    rewrite history_snoc. fold s h. cbn [history is_reset handle]. by rewrite Hrun.
Qed.

Lemma insights_are_ten_newest_witness :
  let rs := replicate 12 (ReqUpdate demo_inputs) in
  length (history rs simulation_state []) = 12%nat ∧
  length (insights (serve rs simulation_state)) = 10%nat.
Proof.
  split; [by vm_compute |].
  apply (insights_are_ten_newest (replicate 12 (ReqUpdate demo_inputs))).
  apply Nat.leb_le. by vm_compute.
Defined.

Lemma handle_cycle_count r s :
  well_formed (traffic_data s) →
  is_reset r = false →
  cycle_count (handle r s).2 = cycle_count s + (if completes_cycle r s then 1 else 0).
Proof.
  intros Hwf Hr. destruct r as [inp| | |d| |]; cbn [handle completes_cycle];
    try discriminate Hr; try (simpl; lia).
  - destruct (skipped s) eqn:Hskip; cbn [negb].
    + rewrite update_traffic_skip by done. simpl. lia.
    + by destruct (update_traffic_run inp s Hskip Hwf) as (g & c & td' & _ & _ & -> & _).
  - destruct (decide (d ∈ directions)) as [Hd|Hd].
    + destruct (set_manual_control_run d s Hd Hwf) as (td' & -> & _). simpl. lia.
    + rewrite set_manual_control_reject by done. simpl. lia.
Qed.

(** C9, as stated, fails: after one completed cycle [cycle_count] is 1 and
    a reset brings it back to 0, so a reset changes it and decreases it. *)
Lemma reset_decreases_cycle_count :
  let s := serve [ReqUpdate demo_inputs] simulation_state in
  cycle_count s = 1 ∧
  cycle_count (handle ReqReset s).2 = 0 ∧
  ¬ (cycle_count s ≤ cycle_count (serve [ReqUpdate demo_inputs; ReqReset] simulation_state)).
Proof. split_and!; [by vm_compute | by vm_compute | by vm_compute]. Qed.

(** C9, amended.  Along every run without a reset, [cycle_count] grows by
    exactly the number of completed (non-skipped) cycles, one per cycle: it
    never decreases, and pause, resume, manual and auto requests, like
    skipped cycles and rejected manual requests, leave it unchanged.  A
    reset sets it to 0. *)
Theorem cycle_count_counts_completed_cycles rs s :
  well_formed (traffic_data s) →
  Forall (λ r, is_reset r = false) rs →
  cycle_count (serve rs s) = cycle_count s + Z.of_nat (completed_cycles rs s) ∧
  cycle_count s ≤ cycle_count (serve rs s) ∧
  cycle_count (handle ReqReset s).2 = 0.
Proof.
  intros Hwf Hrs.
  assert (Heq : cycle_count (serve rs s) = cycle_count s + Z.of_nat (completed_cycles rs s)).
  { revert s Hwf. induction Hrs as [|r rs Hr _ IH]; intros s Hwf.
    - simpl. lia.
    - cbn [serve completed_cycles].
      rewrite IH by (by apply handle_well_formed).
      rewrite (handle_cycle_count r s Hwf Hr).
      destruct (completes_cycle r s); lia. }
  split_and!; [done | lia | by destruct s].
Qed.

Lemma cycle_count_counts_completed_cycles_witness :
  let rs := [ReqUpdate demo_inputs; ReqPause; ReqUpdate demo_inputs; ReqResume;
             ReqManual "east"; ReqUpdate demo_inputs; ReqAuto; ReqUpdate demo_inputs] in
  well_formed (traffic_data simulation_state) ∧
  Forall (λ r, is_reset r = false) rs ∧
  completed_cycles rs simulation_state = 2%nat ∧
  cycle_count (serve rs simulation_state) = 0 + Z.of_nat (completed_cycles rs simulation_state).
Proof.
  intros rs.
  assert (Hrs : Forall (λ r, is_reset r = false) rs) by (repeat constructor).
  split_and!; [exact well_formed_initial | exact Hrs | by vm_compute |].
  exact (proj1 (cycle_count_counts_completed_cycles rs simulation_state
                  well_formed_initial Hrs)).
Defined.

(** * Further properties of the handlers *)

(** ** Invariants of the reachable states *)

Lemma initial_lookup k :
  traffic_data simulation_state !! k =
    if decide (k ∈ directions) then Some (mkApproach 0 "red") else None.
Proof.
  case_decide as Hk; rewrite directions_elem in Hk.
  - by destruct Hk as [-> | [-> | [-> | ->]]].
  - simpl. rewrite !lookup_insert_ne, lookup_empty; [done | ..]; intros <-; tauto.
Qed.

Lemma keys_well_formed td : keys_are_directions td → well_formed td.
Proof.
  intros H. unfold well_formed. rewrite Forall_forall. intros d Hd. by apply H.
Qed.

Lemma randint_range a b raw : a ≤ b → a ≤ randint a b raw ≤ b.
Proof.
  intros Hab. unfold randint.
  pose proof (Z.mod_pos_bound raw (b - a + 1)). lia.
Qed.

Lemma dict_get_drawn_range inp d c :
  dict_get (drawn_counts inp) d = Some c → 0 ≤ c ≤ 50.
Proof.
  unfold drawn_counts, dict_get.
  repeat case_decide; intros Hget; simplify_eq; by apply randint_range.
Qed.

Lemma handle_keys r s :
  keys_are_directions (traffic_data s) →
  keys_are_directions (traffic_data (handle r s).2).
Proof.
  intros Hkeys. pose proof (keys_well_formed _ Hkeys) as Hwf.
  destruct r as [inp| | |d| |]; cbn [handle]; try exact Hkeys.
  - destruct (skipped s) eqn:Hskip.
    + by rewrite update_traffic_skip.
    + destruct (update_traffic_run inp s Hskip Hwf) as (g & c & td' & _ & _ & -> & Htd').
      intros k. cbn [snd traffic_data]. etrans; [|apply Hkeys]. rewrite Htd'.
      destruct (dict_get _ k); [by rewrite fmap_is_Some | done].
  - destruct (decide (d ∈ directions)) as [Hd|Hd].
    + destruct (set_manual_control_run d s Hd Hwf) as (td' & -> & Htd').
      intros k. cbn [snd traffic_data]. etrans; [|apply Hkeys]. rewrite Htd'.
      case_decide; [by rewrite fmap_is_Some | done].
    + by rewrite set_manual_control_reject.
  - destruct (reset_simulation_run s) as (td' & -> & Htd').
    intros k. cbn [snd traffic_data]. rewrite Htd'.
    case_decide as Hk; [by split; eauto |]. rewrite (Hkeys k). tauto.
Qed.

Lemma handle_counts_in_range r s :
  well_formed (traffic_data s) →
  counts_in_range (traffic_data s) →
  counts_in_range (traffic_data (handle r s).2).
Proof.
  intros Hwf Hrange.
  destruct r as [inp| | |d| |]; cbn [handle]; try exact Hrange.
  - destruct (skipped s) eqn:Hskip.
    + by rewrite update_traffic_skip.
    + destruct (update_traffic_run inp s Hskip Hwf) as (g & c & td' & _ & _ & -> & Htd').
      intros k a. cbn [snd traffic_data]. rewrite Htd'.
      destruct (dict_get _ k) as [c'|] eqn:Hk; [|apply Hrange].
      intros (b & _ & ->)%fmap_Some. simpl. by eapply dict_get_drawn_range.
  - destruct (decide (d ∈ directions)) as [Hd|Hd].
    + destruct (set_manual_control_run d s Hd Hwf) as (td' & -> & Htd').
      intros k a. cbn [snd traffic_data]. rewrite Htd'.
      case_decide; [|apply Hrange].
      intros (b & Hb & ->)%fmap_Some. simpl. exact (Hrange k b Hb).
    + by rewrite set_manual_control_reject.
  - destruct (reset_simulation_run s) as (td' & -> & Htd').
    intros k a. cbn [snd traffic_data]. rewrite Htd'.
    case_decide; [|apply Hrange]. intros [= <-]. simpl. lia.
Qed.

Lemma initial_keys_and_counts :
  keys_are_directions (traffic_data simulation_state) ∧
  counts_in_range (traffic_data simulation_state).
Proof.
  split.
  - intros k. rewrite initial_lookup. case_decide; [by split; eauto |].
    split; [by intros [? ?] | done].
  - intros k a. rewrite initial_lookup. case_decide; [|done].
    intros [= <-]. simpl. lia.
Qed.

Lemma serve_keys_and_counts rs : ∀ s,
  keys_are_directions (traffic_data s) ∧ counts_in_range (traffic_data s) →
  keys_are_directions (traffic_data (serve rs s)) ∧
  counts_in_range (traffic_data (serve rs s)).
Proof.
  induction rs as [|r rs IH]; intros s [Hkeys Hrange]; [done |].
  cbn [serve]. apply IH. split.
  - by apply handle_keys.
  - by apply handle_counts_in_range; [apply keys_well_formed |].
Qed.

(** X1.  In every state reached from the initial one, [traffic_data] has
    exactly the four directions as keys and every vehicle count lies
    between 0 and 50. *)
Theorem reachable_keys_and_counts rs :
  keys_are_directions (traffic_data (serve rs simulation_state)) ∧
  counts_in_range (traffic_data (serve rs simulation_state)).
Proof. apply serve_keys_and_counts, initial_keys_and_counts. Qed.

Lemma signals_painted_consistent s : signals_painted s → signals_consistent s.
Proof.
  intros [[Hred Hcur] | [Hin Hsig]]; unfold signals_consistent.
  - assert (Hext : ∀ colour, signals_with colour (traffic_data s)
                             = signals_with colour (traffic_data simulation_state)).
    { intros colour. apply signals_with_ext. intros d Hd.
      rewrite (Hred d Hd), initial_lookup. by rewrite decide_True. }
    rewrite !Hext, Hcur. split_and!; [by left | done | apply directions_elem; tauto].
  - destruct (one_green_painted s (current_green s) Hin eq_refl Hsig) as [Hg Hr].
    rewrite Hg, Hr. split_and!; [by right | done | done].
Qed.

Lemma handle_signals_painted r s :
  well_formed (traffic_data s) →
  signals_painted s → signals_painted (handle r s).2.
Proof.
  intros Hwf Hs.
  destruct r as [inp| | |d| |]; cbn [handle]; try exact Hs.
  - destruct (skipped s) eqn:Hskip.
    + by rewrite update_traffic_skip.
    + destruct (update_traffic_run inp s Hskip Hwf) as (g & c & td' & Hmax & _ & -> & Htd').
      right. cbn [snd traffic_data current_green].
      split; [by eapply first_max_in |]. intros k Hk. rewrite Htd'.
      unfold well_formed in Hwf. rewrite Forall_forall in Hwf. destruct (Hwf k Hk) as [a ->].
      destruct (dict_get_drawn inp) as [_ Hsome]. rewrite Forall_forall in Hsome.
      by destruct (Hsome k Hk) as [c' ->].
  - destruct (decide (d ∈ directions)) as [Hd|Hd].
    + destruct (set_manual_control_run d s Hd Hwf) as (td' & -> & Htd').
      right. cbn [snd traffic_data current_green]. split; [done |].
      intros k Hk. rewrite Htd', decide_True by done.
      unfold well_formed in Hwf. rewrite Forall_forall in Hwf.
      by destruct (Hwf k Hk) as [a ->].
    + by rewrite set_manual_control_reject.
  - destruct (reset_simulation_run s) as (td' & -> & Htd').
    left. cbn [snd traffic_data current_green]. split; [|done].
    intros k Hk. by rewrite Htd', decide_True.
Qed.

(** X2.  In every state reached from the initial one at most one approach
    is green, a green approach is the one named by [current_green], every
    direction is green or red, and [current_green] is one of the four
    directions. *)
Theorem reachable_signals_consistent rs :
  signals_consistent (serve rs simulation_state).
Proof.
  apply signals_painted_consistent.
  assert (H0 : well_formed (traffic_data simulation_state) ∧ signals_painted simulation_state).
  { split; [exact well_formed_initial |]. left. split; [|done].
    intros d Hd. by rewrite initial_lookup, decide_True. }
  revert H0. generalize simulation_state.
  induction rs as [|r rs IH]; intros s [Hwf Hs]; [done |].
  cbn [serve]. apply IH. split.
  - by apply handle_well_formed.
  - by apply handle_signals_painted.
Qed.



(** X4.  A reset from any state reached from the initial one gives back
    exactly the module-level literal. *)
Theorem reset_restores_initial_state rs :
  (reset_simulation (serve rs simulation_state)).2 = simulation_state.
Proof.
  destruct (serve_keys_and_counts rs _ initial_keys_and_counts) as [Hkeys _].
  destruct (reset_simulation_run (serve rs simulation_state)) as (td' & -> & Htd').
  cbn [snd].
  assert (Htd : td' = traffic_data simulation_state); [|by rewrite Htd].
  apply map_eq. intros k. rewrite Htd', initial_lookup. case_decide as Hk; [done |].
  apply eq_None_not_Some. by rewrite (Hkeys k).
Qed.

(** X5.  From every state, also one that lacks entries, a reset returns
    normally, leaves an entry for each of the four directions, and a second
    reset changes nothing more. *)
Theorem reset_simulation_repairs s :
  (∃ td, (reset_simulation s).1 = Ok (MessageTraffic "Simulation reset" td)) ∧
  well_formed (traffic_data (reset_simulation s).2) ∧
  (reset_simulation (reset_simulation s).2).2 = (reset_simulation s).2.
Proof.
  destruct (reset_simulation_run s) as (td1 & Hrun & Htd1).
  destruct (reset_simulation_run (reset_simulation s).2) as (td2 & Hrun2 & Htd2).
  rewrite Hrun2. rewrite Hrun in Htd2 |- *. cbn [fst snd traffic_data] in *.
  split_and!.
  - by eexists.
  - unfold well_formed. rewrite Forall_forall. intros d Hd.
    rewrite Htd1, decide_True by done. by eexists.
  - f_equal. apply map_eq. intros k. rewrite Htd2, Htd1. by case_decide.
Qed.

(** ** What a completed cycle returns *)

Lemma upper_direction g :
  g ∈ directions → "Green light: " ++ upper g ∈ decision_labels.
Proof.
  intros Hg. apply directions_elem in Hg.
  destruct Hg as [-> | [-> | [-> | ->]]]; vm_compute; repeat constructor.
Qed.

(** X6.  The response of a completed cycle agrees with the state it
    leaves: the returned map is the stored [traffic_data], the returned
    direction is [current_green], the returned insight is the newest stored
    one, and the counts recorded in the insight are, direction by direction
    and in the order north, south, east, west, the counts now stored. *)
Theorem update_traffic_response_matches_state inp s :
  skipped s = false →
  well_formed (traffic_data s) →
  let s' := (update_traffic inp s).2 in
  ∃ insight,
    (update_traffic inp s).1 = Ok (CycleResult (traffic_data s') (current_green s') insight) ∧
    head (insights s') = Some insight ∧
    dict_keys (vehicle_counts insight) = directions ∧
    Forall (λ d, dict_get (vehicle_counts insight) d = vehicles <$> traffic_data s' !! d)
      directions ∧
    is_paused s' = false ∧ is_manual s' = false.
Proof.
  intros Hskip Hwf s'. subst s'.
  destruct (update_traffic_run inp s Hskip Hwf) as (g & c & td' & _ & _ & -> & Htd').
  exists (insight_of inp g c).
  cbn [fst snd traffic_data current_green insights is_paused is_manual insight_of vehicle_counts].
  unfold skipped in Hskip. apply orb_false_elim in Hskip as [Hp Hm].
  split_and!; try done.
  rewrite Forall_forall. intros d Hd. rewrite Htd'.
  unfold well_formed in Hwf. rewrite Forall_forall in Hwf. destruct (Hwf d Hd) as [a ->].
  destruct (dict_get_drawn inp) as [_ Hsome]. rewrite Forall_forall in Hsome.
  by destruct (Hsome d Hd) as [c' ->].
Qed.

Lemma update_traffic_response_matches_state_witness :
  let s' := (update_traffic demo_inputs simulation_state).2 in
  skipped simulation_state = false ∧
  well_formed (traffic_data simulation_state) ∧
  ∃ insight,
    (update_traffic demo_inputs simulation_state).1
      = Ok (CycleResult (traffic_data s') (current_green s') insight) ∧
    head (insights s') = Some insight ∧
    dict_keys (vehicle_counts insight) = directions ∧
    Forall (λ d, dict_get (vehicle_counts insight) d = vehicles <$> traffic_data s' !! d)
      directions ∧
    is_paused s' = false ∧ is_manual s' = false.
Proof.
  split_and!; [reflexivity | exact well_formed_initial |].
  exact (update_traffic_response_matches_state demo_inputs simulation_state
           eq_refl well_formed_initial).
Defined.

(** X7.  The decision text of a completed cycle is ["Green light: "]
    followed by the selected direction in upper case, hence one of four
    labels, and its timestamp is the clock reading of the request. *)
Theorem update_traffic_decision_label inp s :
  skipped s = false →
  well_formed (traffic_data s) →
  ∃ td g insight,
    (update_traffic inp s).1 = Ok (CycleResult td g insight) ∧
    decision insight = "Green light: " ++ upper g ∧
    decision insight ∈ decision_labels ∧
    timestamp insight = utc_now inp.
Proof.
  intros Hskip Hwf.
  destruct (update_traffic_run inp s Hskip Hwf) as (g & c & td' & Hmax & _ & -> & _).
  exists td', g, (insight_of inp g c). split_and!; try done.
  apply upper_direction. by eapply first_max_in.
Qed.

Lemma update_traffic_decision_label_witness :
  skipped simulation_state = false ∧
  well_formed (traffic_data simulation_state) ∧
  ∃ td g insight,
    (update_traffic demo_inputs simulation_state).1 = Ok (CycleResult td g insight) ∧
    decision insight = "Green light: " ++ upper g ∧
    decision insight ∈ decision_labels ∧
    timestamp insight = utc_now demo_inputs.
Proof.
  split_and!; [reflexivity | exact well_formed_initial |].
  exact (update_traffic_decision_label demo_inputs simulation_state
           eq_refl well_formed_initial).
Defined.

Lemma generate_ai_explanation_prompt inp g c n s e w vc :
  dict_get vc "north" = Some n → dict_get vc "south" = Some s →
  dict_get vc "east" = Some e → dict_get vc "west" = Some w →
  generate_ai_explanation inp g c vc =
    match send_message inp (prompt_for g c n s e w) with
    | Ok response => response
    | Raise _ => fallback_explanation g c
    end.
Proof.
  intros Hn Hs He Hw.
  unfold generate_ai_explanation, dict_item, mbind, Res_bind.
  by rewrite Hn, Hs, He, Hw.
Qed.

(** X8.  In a completed cycle the language model is asked one prompt, the
    one that lists the four drawn counts and names the selected direction
    with its count; the explanation is its reply when it replies and the
    fallback text when it raises. *)
Theorem update_traffic_explanation inp s :
  skipped s = false →
  well_formed (traffic_data s) →
  ∃ td g c insight,
    (update_traffic inp s).1 = Ok (CycleResult td g insight) ∧
    dict_get (drawn_counts inp) g = Some c ∧
    explanation insight =
      match send_message inp
              (prompt_for g c (drawn inp 0) (drawn inp 1) (drawn inp 2) (drawn inp 3)) with
      | Ok response => response
      | Raise _ => fallback_explanation g c
      end.
Proof.
  intros Hskip Hwf.
  destruct (update_traffic_run inp s Hskip Hwf) as (g & c & td' & _ & Hg & -> & _).
  exists td', g, c, (insight_of inp g c). split_and!; [done | done |].
  cbn [explanation insight_of]. by apply generate_ai_explanation_prompt.
Qed.

Lemma update_traffic_explanation_witness :
  let inp := mkInputs (entropy demo_inputs) (λ prompt, Ok ("Re: " ++ prompt)) "t" in
  skipped simulation_state = false ∧
  well_formed (traffic_data simulation_state) ∧
  ∃ td g c insight,
    (update_traffic inp simulation_state).1 = Ok (CycleResult td g insight) ∧
    dict_get (drawn_counts inp) g = Some c ∧
    explanation insight =
      match send_message inp
              (prompt_for g c (drawn inp 0) (drawn inp 1) (drawn inp 2) (drawn inp 3)) with
      | Ok response => response
      | Raise _ => fallback_explanation g c
      end.
Proof.
  intros inp. split_and!; [reflexivity | exact well_formed_initial |].
  exact (update_traffic_explanation inp simulation_state eq_refl well_formed_initial).
Defined.

Example prompt_for_north_30 :
  prompt_for "north" 30 30 30 10 5 =
    "Traffic detected: North=30, South=30, East=10, West=5 vehicles. The north road has the highest congestion with 30 vehicles. Explain why you're prioritizing this direction.".
Proof. reflexivity. Qed.

(** X9.  When [all_counts] lacks one of the four directions, the lookup
    inside [try] raises and [generate_ai_explanation] returns the fallback
    text whatever the language model would have answered. *)
Theorem generate_ai_explanation_missing_count inp direction c all_counts k :
  k ∈ directions →
  dict_get all_counts k = None →
  generate_ai_explanation inp direction c all_counts = fallback_explanation direction c.
Proof.
  intros Hk Hnone. apply directions_elem in Hk.
  unfold generate_ai_explanation, dict_item, mbind, Res_bind.
  destruct Hk as [-> | [-> | [-> | ->]]]; rewrite ?Hnone;
    repeat (match goal with |- context [dict_get all_counts ?x] =>
              destruct (dict_get all_counts x) eqn:? end; try done); congruence.
Qed.

Lemma generate_ai_explanation_missing_count_witness :
  let inp := mkInputs (λ _, 0) (λ prompt, Ok "Busy road.") "t" in
  let all_counts := [("north", 7); ("south", 3); ("west", 1)] in
  "east" ∈ directions ∧
  dict_get all_counts "east" = None ∧
  generate_ai_explanation inp "north" 7 all_counts
    = "Prioritizing north road with 7 vehicles due to highest congestion.".
Proof.
  intros inp all_counts.
  assert (He : "east" ∈ directions) by (apply directions_elem; tauto).
  split_and!; [exact He | reflexivity |].
  exact (generate_ai_explanation_missing_count inp "north" 7 all_counts "east" He eq_refl).
Defined.

(** ** How the handlers compose *)

Lemma set_manual_control_twice d1 d2 s :
  d1 ∈ directions →
  d2 ∈ directions →
  well_formed (traffic_data s) →
  (set_manual_control d2 (set_manual_control d1 s).2).2 = (set_manual_control d2 s).2.
Proof.
  intros Hd1 Hd2 Hwf.
  pose proof (handle_well_formed (ReqManual d1) s Hwf) as Hwf1. cbn [handle] in Hwf1.
  destruct (set_manual_control_run d2 _ Hd2 Hwf1) as (td12 & -> & Htd12).
  destruct (set_manual_control_run d2 s Hd2 Hwf) as (td2 & -> & Htd2).
  revert Htd12.
  destruct (set_manual_control_run d1 s Hd1 Hwf) as (td1 & -> & Htd1).
  cbn [snd is_paused insights cycle_count traffic_data]. intros Htd12.
  f_equal. apply map_eq. intros k. rewrite Htd12, Htd2, Htd1.
  case_decide; [|done]. by destruct (traffic_data s !! k).
Qed.

(** X10.  Of two manual overrides in a row only the last one shows: the
    state after [set_manual_control d1] then [set_manual_control d2] is the
    state after [set_manual_control d2] alone.  In particular repeating an
    override changes nothing. *)
Theorem set_manual_control_last_wins d1 d2 s :
  d1 ∈ directions →
  d2 ∈ directions →
  well_formed (traffic_data s) →
  (set_manual_control d2 (set_manual_control d1 s).2).2 = (set_manual_control d2 s).2.
Proof. apply set_manual_control_twice. Qed.

Lemma set_manual_control_last_wins_witness :
  "south" ∈ directions ∧ "west" ∈ directions ∧
  well_formed (traffic_data simulation_state) ∧
  serve [ReqManual "south"; ReqManual "west"] simulation_state
    = serve [ReqManual "west"] simulation_state.
Proof.
  assert (Hs : "south" ∈ directions) by (apply directions_elem; tauto).
  assert (Hw : "west" ∈ directions) by (apply directions_elem; tauto).
  split_and!; [exact Hs | exact Hw | exact well_formed_initial |].
  exact (set_manual_control_last_wins "south" "west" simulation_state
           Hs Hw well_formed_initial).
Defined.

(** X11.  While the controller is in manual mode, update, pause and resume
    requests in any number and order leave the signals, the counts,
    [current_green], [cycle_count] and [insights] as they are, and the
    controller stays in manual mode. *)
Theorem manual_mode_holds rs s :
  is_manual s = true →
  Forall (λ r, keeps_manual r = true) rs →
  traffic_data (serve rs s) = traffic_data s ∧
  current_green (serve rs s) = current_green s ∧
  cycle_count (serve rs s) = cycle_count s ∧
  insights (serve rs s) = insights s ∧
  is_manual (serve rs s) = true.
Proof.
  intros Hman Hrs. revert s Hman.
  induction Hrs as [|r rs Hr _ IH]; intros s Hman; [done |].
  assert (Hstep : traffic_data (handle r s).2 = traffic_data s ∧
                  current_green (handle r s).2 = current_green s ∧
                  cycle_count (handle r s).2 = cycle_count s ∧
                  insights (handle r s).2 = insights s ∧
                  is_manual (handle r s).2 = true).
  { destruct r as [inp| | |d| |]; try discriminate Hr; cbn [handle]; [|by destruct s..].
    rewrite update_traffic_skip; [done |]. unfold skipped. by rewrite Hman, orb_true_r. }
  destruct Hstep as (Htd & Hcg & Hcc & Hins & Hman').
  cbn [serve]. destruct (IH _ Hman') as (-> & -> & -> & -> & ->). done.
Qed.

Lemma manual_mode_holds_witness :
  let s := (set_manual_control "east" simulation_state).2 in
  let rs := [ReqUpdate demo_inputs; ReqPause; ReqUpdate demo_inputs; ReqResume;
             ReqUpdate demo_inputs] in
  is_manual s = true ∧
  Forall (λ r, keeps_manual r = true) rs ∧
  traffic_data (serve rs s) = traffic_data s ∧
  current_green (serve rs s) = "east" ∧
  cycle_count (serve rs s) = 0.
Proof.
  intros s rs.
  assert (Hrs : Forall (λ r, keeps_manual r = true) rs) by (repeat constructor).
  destruct (manual_mode_holds rs s eq_refl Hrs) as (Htd & Hcg & Hcc & _).
  split_and!; [reflexivity | exact Hrs | exact Htd | exact Hcg | exact Hcc].
Defined.

(** X12.  While the simulation is paused, requests other than resume and
    reset leave every vehicle count, [cycle_count] and [insights] as they
    are (a manual override may still repaint the signals), and the
    simulation stays paused. *)
Theorem pause_holds rs s :
  well_formed (traffic_data s) →
  is_paused s = true →
  Forall (λ r, keeps_pause r = true) rs →
  (∀ k, vehicles <$> traffic_data (serve rs s) !! k = vehicles <$> traffic_data s !! k) ∧
  cycle_count (serve rs s) = cycle_count s ∧
  insights (serve rs s) = insights s ∧
  is_paused (serve rs s) = true.
Proof.
  intros Hwf Hp Hrs. revert s Hwf Hp.
  induction Hrs as [|r rs Hr _ IH]; intros s Hwf Hp; [done |].
  assert (Hstep :
    (∀ k, vehicles <$> traffic_data (handle r s).2 !! k = vehicles <$> traffic_data s !! k) ∧
    cycle_count (handle r s).2 = cycle_count s ∧
    insights (handle r s).2 = insights s ∧
    is_paused (handle r s).2 = true).
  { destruct r as [inp| | |d| |]; try discriminate Hr; cbn [handle]; try by destruct s.
    - rewrite update_traffic_skip; [done |]. unfold skipped. by rewrite Hp.
    - destruct (decide (d ∈ directions)) as [Hd|Hd].
      + destruct (set_manual_control_run d s Hd Hwf) as (td' & -> & Htd').
        cbn [snd traffic_data cycle_count insights is_paused]. split_and!; try done.
        intros k. rewrite Htd'. case_decide; [|done]. by destruct (traffic_data s !! k).
      + by rewrite set_manual_control_reject. }
  destruct Hstep as (Hveh & Hcc & Hins & Hp').
  cbn [serve].
  destruct (IH _ (handle_well_formed r s Hwf) Hp') as (Hveh' & -> & -> & ->).
  split_and!; try done. intros k. by rewrite Hveh', Hveh.
Qed.

Lemma pause_holds_witness :
  let s := (pause_simulation (update_traffic demo_inputs simulation_state).2).2 in
  let rs := [ReqUpdate demo_inputs; ReqManual "west"; ReqAuto; ReqUpdate demo_inputs;
             ReqManual "up"; ReqPause] in
  well_formed (traffic_data s) ∧
  is_paused s = true ∧
  Forall (λ r, keeps_pause r = true) rs ∧
  vehicles <$> traffic_data (serve rs s) !! "east" = Some 10 ∧
  cycle_count (serve rs s) = 1 ∧
  length (insights (serve rs s)) = 1%nat.
Proof.
  intros s rs.
  assert (Hwf : well_formed (traffic_data s)).
  { apply (handle_well_formed ReqPause), (handle_well_formed (ReqUpdate demo_inputs)).
    exact well_formed_initial. }
  assert (Hrs : Forall (λ r, keeps_pause r = true) rs) by (repeat constructor).
  destruct (pause_holds rs s Hwf eq_refl Hrs) as (Hveh & Hcc & Hins & _).
  split_and!; [exact Hwf | reflexivity | exact Hrs | | | ].
  - by rewrite Hveh.
  - by rewrite Hcc.
  - by rewrite Hins.
Defined.

(** ** Missing entries *)

Lemma bind_raise {A B} (m : M A) (k : A → M B) s e s' :
  m s = (Raise e, s') → (m ≫= k) s = (Raise e, s').
Proof. intros H. unfold mbind, M_bind. by rewrite H. Qed.

Lemma head_filter_split {A} (P : A → Prop) `{!∀ x, Decision (P x)} (l : list A) d :
  head (filter P l) = Some d →
  ∃ before after, l = (before ++ d :: after)%list ∧ Forall (λ x, ¬ P x) before ∧ P d.
Proof.
  induction l as [|x l IH]; [done |].
  rewrite filter_cons. case_decide as Hx.
  - intros [= <-]. by exists [], l.
  - intros (before & after & -> & Hbefore & Hd)%IH.
    exists (x :: before), after. split_and!; [done | by constructor | done].
Qed.

Lemma first_missing_split td d :
  first_missing td = Some d →
  ∃ before after, directions = (before ++ d :: after)%list ∧
    Forall (λ x, is_Some (td !! x)) before ∧ td !! d = None.
Proof.
  intros (before & after & Hl & Hbefore & Hd)%head_filter_split.
  exists before, after. split_and!; [done | | done].
  eapply Forall_impl; [exact Hbefore |]. intros x Hx. simpl in Hx.
  by apply not_eq_None_Some.
Qed.

Lemma first_missing_None td : first_missing td = None ↔ well_formed td.
Proof.
  unfold first_missing, well_formed. rewrite head_None.
  generalize directions. intros l. induction l as [|x l IH]; [done |].
  rewrite filter_cons, Forall_cons, <- IH. case_decide as Hx.
  - split; [done |]. intros [[a Ha] _]. congruence.
  - split; [|tauto]. intros Hl. split; [by apply not_eq_None_Some | done].
Qed.

(** The first loop of [update_traffic] stops at the first direction
    without an entry; the counts written before stay written. *)
Lemma draw_counts_missing inp before : ∀ k vc s d after,
  Forall (λ x, is_Some (traffic_data s !! x)) before →
  traffic_data s !! d = None →
  ∃ s', draw_counts inp k (before ++ d :: after)%list vc s = (Raise (KeyError d), s') ∧
        only_counts_differ s s'.
Proof.
  induction before as [|x before IH]; intros k vc s d after Hbefore Hd.
  - exists s. split; [|by unfold only_counts_differ].
    cbn [app draw_counts]. apply bind_raise. unfold set_vehicles. by rewrite Hd.
  - apply Forall_cons in Hbefore as [[a Ha] Hbefore].
    assert (Hne : x ≠ d) by congruence.
    set (s1 := with_traffic_data
                 (<[x := mkApproach (randint 0 50 (entropy inp k)) (signal a)]> (traffic_data s)) s).
    destruct (IH (S k) (dict_set x (randint 0 50 (entropy inp k)) vc) s1 d after)
      as (s' & Hrun & Hdiff).
    + eapply Forall_impl; [exact Hbefore |]. intros y [b Hb]. simpl.
      destruct (decide (x = y)) as [->|Hxy]; [by rewrite lookup_insert_eq |].
      by rewrite lookup_insert_ne, Hb.
    + simpl. by rewrite lookup_insert_ne.
    + exists s'. split.
      * cbn [app draw_counts]. by erewrite bind_run; [|by apply set_vehicles_run].
      * unfold only_counts_differ in *.
        destruct Hdiff as (Hp & Hm & Hcg & Hins & Hcc & Hsig).
        rewrite Hp, Hm, Hcg, Hins, Hcc. subst s1.
        split_and!; try done. intros y. rewrite Hsig. simpl.
        destruct (decide (x = y)) as [<-|Hxy]; [by rewrite lookup_insert_eq, Ha |].
        by rewrite lookup_insert_ne.
Qed.

(** X13.  When [traffic_data] lacks a direction, a cycle that is not
    skipped raises [KeyError] for the first missing direction of the
    enumeration.  Counts of earlier directions may already be overwritten,
    but the signals, [current_green], [cycle_count], [insights] and both
    flags are as before. *)
Theorem update_traffic_missing_direction inp s d :
  skipped s = false →
  first_missing (traffic_data s) = Some d →
  ∃ s', update_traffic inp s = (Raise (KeyError d), s') ∧ only_counts_differ s s'.
Proof.
  intros Hskip (before & after & Hl & Hbefore & Hd)%first_missing_split.
  destruct (draw_counts_missing inp before 0%nat [] s d after Hbefore Hd) as (s' & Hrun & Hdiff).
  exists s'. split; [|done].
  unfold update_traffic. rewrite (bind_run get _ s s s eq_refl).
  unfold skipped in Hskip. rewrite Hskip, Hl. by apply bind_raise.
Qed.

Lemma update_traffic_missing_direction_witness :
  let s := with_traffic_data (delete "east" (traffic_data simulation_state)) simulation_state in
  skipped s = false ∧
  first_missing (traffic_data s) = Some "east" ∧
  ∃ s', update_traffic demo_inputs s = (Raise (KeyError "east"), s') ∧ only_counts_differ s s'.
Proof.
  intros s. split_and!; [reflexivity | reflexivity |].
  exact (update_traffic_missing_direction demo_inputs s "east" eq_refl eq_refl).
Defined.

(** The partial effect is real: with ["east"] missing the counts of
    ["north"] and ["south"] are overwritten before the exception. *)
Example update_traffic_missing_east_overwrites :
  let s := with_traffic_data (delete "east" (traffic_data simulation_state)) simulation_state in
  let s' := (update_traffic demo_inputs s).2 in
  vehicles <$> traffic_data s' !! "north" = Some 30 ∧
  vehicles <$> traffic_data s' !! "south" = Some 30 ∧
  vehicles <$> traffic_data s' !! "west" = Some 0.
Proof. by vm_compute. Qed.

(** The signal loop stops at the first direction without an entry; the
    signals written before stay written. *)
Lemma update_signals_missing g before : ∀ s k after,
  Forall (λ x, is_Some (traffic_data s !! x)) before →
  traffic_data s !! k = None →
  ∃ s', for_each (before ++ k :: after)%list
          (λ direction, if decide (direction = g) then set_signal direction "green"
                        else set_signal direction "red") s
          = (Raise (KeyError k), s') ∧
        only_signals_differ s s'.
Proof.
  induction before as [|x before IH]; intros s k after Hbefore Hk.
  - exists s. split; [|by unfold only_signals_differ].
    cbn [app for_each]. apply bind_raise.
    unfold set_signal. case_decide; by rewrite Hk.
  - apply Forall_cons in Hbefore as [[a Ha] Hbefore].
    assert (Hne : x ≠ k) by congruence.
    set (s1 := with_traffic_data
                 (<[x := mkApproach (vehicles a) (colour_for g x)]> (traffic_data s)) s).
    destruct (IH s1 k after) as (s' & Hrun & Hdiff).
    + eapply Forall_impl; [exact Hbefore |]. intros y [b Hb]. simpl.
      destruct (decide (x = y)) as [->|Hxy]; [by rewrite lookup_insert_eq |].
      by rewrite lookup_insert_ne, Hb.
    + simpl. by rewrite lookup_insert_ne.
    + exists s'. split.
      * cbn [app for_each]. by erewrite bind_run; [|by apply signal_body_run].
      * unfold only_signals_differ in *.
        destruct Hdiff as (Hp & Hm & Hcg & Hins & Hcc & Hveh).
        rewrite Hp, Hm, Hcg, Hins, Hcc. subst s1.
        split_and!; try done. intros y. rewrite Hveh. simpl.
        destruct (decide (x = y)) as [<-|Hxy]; [by rewrite lookup_insert_eq, Ha |].
        by rewrite lookup_insert_ne.
Qed.

(** X14.  When [traffic_data] lacks a direction, a manual override with a
    valid direction raises [KeyError] for the first missing direction, but
    [is_manual] is already set: the controller is left in manual mode with
    [current_green], the counts, [cycle_count] and [insights] as before and
    only the signals of earlier directions repainted. *)
Theorem set_manual_control_missing_direction d s k :
  d ∈ directions →
  first_missing (traffic_data s) = Some k →
  ∃ s', set_manual_control d s = (Raise (KeyError k), s') ∧
        is_manual s' = true ∧
        only_signals_differ (with_is_manual true s) s'.
Proof.
  intros Hd (before & after & Hl & Hbefore & Hk)%first_missing_split.
  destruct (update_signals_missing d before (with_is_manual true s) k after Hbefore Hk)
    as (s' & Hrun & Hdiff).
  exists s'. split_and!; [| | done].
  - unfold set_manual_control. rewrite decide_True by done.
    rewrite (bind_run (modify _) _ s tt (with_is_manual true s) eq_refl).
    apply bind_raise. unfold update_signals. by rewrite Hl.
  - by destruct Hdiff as (_ & -> & _).
Qed.

Lemma set_manual_control_missing_direction_witness :
  let s := with_traffic_data (delete "south" (traffic_data simulation_state)) simulation_state in
  "west" ∈ directions ∧
  first_missing (traffic_data s) = Some "south" ∧
  ∃ s', set_manual_control "west" s = (Raise (KeyError "south"), s') ∧
        is_manual s' = true ∧
        only_signals_differ (with_is_manual true s) s'.
Proof.
  intros s.
  assert (Hw : "west" ∈ directions) by (apply directions_elem; tauto).
  split_and!; [exact Hw | reflexivity |].
  exact (set_manual_control_missing_direction "west" s "south" Hw eq_refl).
Defined.

Lemma get_current_traffic_run s :
  (get_current_traffic s).2 = s ∧
  match first_missing (traffic_data s) with
  | Some d => (get_current_traffic s).1 = Raise (KeyError d)
  | None =>
      ∃ ts, (get_current_traffic s).1 = Ok ts ∧
        traffic_data s !! "north" = Some (ts_north ts) ∧
        traffic_data s !! "south" = Some (ts_south ts) ∧
        traffic_data s !! "east" = Some (ts_east ts) ∧
        traffic_data s !! "west" = Some (ts_west ts) ∧
        ts_current_green ts = current_green s ∧
        ts_is_paused ts = is_paused s ∧
        ts_is_manual ts = is_manual s ∧
        ts_cycle_count ts = cycle_count s
  end.
Proof.
  destruct s as [p m cg td ins cc].
  unfold get_current_traffic, first_missing, directions, traffic_item,
    mbind, M_bind, get, mret, M_ret.
  cbn [traffic_data current_green is_paused is_manual cycle_count].
  rewrite !filter_cons, filter_nil.
  destruct (td !! "north") as [an|] eqn:Hn; [|(rewrite decide_True by done); cbn [head fst snd]; done].
  rewrite decide_False by done. cbn [traffic_data].
  destruct (td !! "south") as [as_|] eqn:Hs; [|(rewrite decide_True by done); cbn [head fst snd]; done].
  rewrite decide_False by done. cbn [traffic_data].
  destruct (td !! "east") as [ae|] eqn:He; [|(rewrite decide_True by done); cbn [head fst snd]; done].
  rewrite decide_False by done. cbn [traffic_data].
  destruct (td !! "west") as [aw|] eqn:Hw; [|(rewrite decide_True by done); cbn [head fst snd]; done].
  rewrite decide_False by done.
  cbn [head fst snd traffic_data current_green is_paused is_manual cycle_count].
  split; [done |]. by eexists.
Qed.

(** X15.  [get_current_traffic] never changes the state.  It raises
    [KeyError] for the first missing direction when one is missing, and
    otherwise returns the four entries, [current_green], both flags and
    [cycle_count] as stored. *)
Theorem get_current_traffic_snapshot s :
  (get_current_traffic s).2 = s ∧
  match first_missing (traffic_data s) with
  | Some d => (get_current_traffic s).1 = Raise (KeyError d)
  | None =>
      ∃ ts, (get_current_traffic s).1 = Ok ts ∧
        traffic_data s !! "north" = Some (ts_north ts) ∧
        traffic_data s !! "south" = Some (ts_south ts) ∧
        traffic_data s !! "east" = Some (ts_east ts) ∧
        traffic_data s !! "west" = Some (ts_west ts) ∧
        ts_current_green ts = current_green s ∧
        ts_is_paused ts = is_paused s ∧
        ts_is_manual ts = is_manual s ∧
        ts_cycle_count ts = cycle_count s
  end.
Proof. apply get_current_traffic_run. Qed.

(** * The API tester *)

(** ** One request *)

Lemma run_test_cases fw envs name method endpoint expected data w :
  ∃ ok body w',
    run_test fw envs name method endpoint expected data w = (Ok (ok, body), w') ∧
    tests_run (tester w') = S (tests_run (tester w)) ∧
    (if ok
     then tests_passed (tester w') = S (tests_passed (tester w)) ∧
          failed_tests (tester w') = failed_tests (tester w)
     else tests_passed (tester w') = tests_passed (tester w) ∧
          ∃ f, failed_tests (tester w') = (failed_tests (tester w) ++ [f])%list) ∧
    (ok = true ↔
       (method = "GET" ∨ method = "POST") ∧
       net (envs (tests_run (tester w))) = Delivered ∧
       status (api_router fw (inputs (envs (tests_run (tester w))))
                 method endpoint data (server w)).1 = expected).
Proof.
  unfold run_test. case_decide as Hm.
  - destruct (net (envs (tests_run (tester w)))) as [|error|error] eqn:Hnet.
    + destruct (api_router _ _ _ _ _ _) as [response s'] eqn:Happ. cbn [fst].
      destruct (Z.eqb_spec (status response) expected) as [Heq|Hne].
      * eexists true, _, _. split_and!; try done.
      * eexists false, _, _. split_and!; try done; [by eexists |].
        split; [done | by intros (_ & _ & ?)].
    + eexists false, _, _. split_and!; try done; [by eexists |].
      split; [done | by intros (_ & ? & _)].
    + destruct (api_router _ _ _ _ _ _) as [response s'] eqn:Happ.
      eexists false, _, _. split_and!; try done; [by eexists |].
      split; [done | by intros (_ & ? & _)].
  - eexists false, _, _. split_and!; try done; [by eexists |].
    split; [done | by intros (? & _)].
Qed.

(** X16.  [run_test] never raises and counts its request.  It returns
    [True] exactly when the method is GET or POST, the request is answered
    and the status is the expected one; it then counts the test as passed,
    and otherwise appends exactly one entry to [failed_tests]. *)
Theorem run_test_outcome fw envs name method endpoint expected data w :
  ∃ ok body w',
    run_test fw envs name method endpoint expected data w = (Ok (ok, body), w') ∧
    tests_run (tester w') = S (tests_run (tester w)) ∧
    (if ok
     then tests_passed (tester w') = S (tests_passed (tester w)) ∧
          failed_tests (tester w') = failed_tests (tester w)
     else tests_passed (tester w') = tests_passed (tester w) ∧
          ∃ f, failed_tests (tester w') = (failed_tests (tester w) ++ [f])%list) ∧
    (ok = true ↔
       (method = "GET" ∨ method = "POST") ∧
       net (envs (tests_run (tester w))) = Delivered ∧
       status (api_router fw (inputs (envs (tests_run (tester w))))
                 method endpoint data (server w)).1 = expected).
Proof. apply run_test_cases. Qed.

(** ** The books of the tester *)

Lemma keeps_ret {A} I (a : A) : keeps I (mret a : T A).
Proof. by intros w. Qed.

Lemma keeps_bind {A B} I (m : T A) (k : A → T B) :
  keeps I m → (∀ a, keeps I (k a)) → keeps I (m ≫= k).
Proof.
  intros Hm Hk w Hw. unfold mbind, T_bind. specialize (Hm w Hw).
  destruct (m w) as [[a|e] w1]; [by apply Hk | done].
Qed.

Lemma keeps_lift_t {A} I (r : Res A) : keeps I (lift_t r).
Proof. by intros w. Qed.

Lemma keeps_all_passed I : keeps I all_passed.
Proof. by intros w. Qed.

Lemma keeps_run_test fw envs name method endpoint expected data :
  keeps balanced (run_test fw envs name method endpoint expected data).
Proof.
  intros w Hw. unfold balanced in *.
  destruct (run_test_cases fw envs name method endpoint expected data w)
    as (ok & body & w' & -> & Hrun & Hok & _). cbn [snd].
  destruct ok.
  - destruct Hok as [-> ->]. lia.
  - destruct Hok as [-> [f ->]]. rewrite length_app. simpl. lia.
Qed.

Create HintDb keeps_db.
#[local] Hint Resolve keeps_ret keeps_lift_t keeps_all_passed keeps_run_test : keeps_db.

(** Break a test function into its requests and returns. *)
Ltac keeps_steps :=
  repeat first
    [ apply keeps_bind; [| intros ?; cbv zeta]
    | match goal with |- keeps _ (if ?b then _ else _) => destruct b end
    | match goal with |- keeps _ (match ?x with _ => _ end) => destruct x end
    | solve [auto with keeps_db] ].

Lemma keeps_manual_control_loop fw envs ds :
  keeps balanced (manual_control_loop fw envs ds).
Proof.
  induction ds as [|direction ds IH]; cbn [manual_control_loop]; keeps_steps.
Qed.

#[local] Hint Resolve keeps_manual_control_loop : keeps_db.

Lemma keeps_run_all_tests_body fw envs :
  keeps balanced (run_all_tests fw envs).
Proof.
  unfold run_all_tests, test_root_endpoint, test_get_current_traffic, test_traffic_update,
    test_get_insights, test_pause_resume_simulation, test_manual_control, test_auto_mode,
    test_reset_simulation, test_invalid_manual_direction.
  keeps_steps.
Qed.

Lemma verdict_bind {A} (m : T A) (k : A → T bool) :
  (∀ a w, match (k a w).1 with
          | Ok b => b = bool_decide (tests_passed (tester (k a w).2)
                                     = tests_run (tester (k a w).2))
          | Raise _ => True
          end) →
  ∀ w, match ((m ≫= k) w).1 with
       | Ok b => b = bool_decide (tests_passed (tester ((m ≫= k) w).2)
                                  = tests_run (tester ((m ≫= k) w).2))
       | Raise _ => True
       end.
Proof.
  intros Hk w. unfold mbind, T_bind.
  destruct (m w) as [[a|e] w1]; [apply Hk | done].
Qed.

Lemma verdict_run_all_tests fw envs w :
  match (run_all_tests fw envs w).1 with
  | Ok b => b = bool_decide (tests_passed (tester (run_all_tests fw envs w).2)
                             = tests_run (tester (run_all_tests fw envs w).2))
  | Raise _ => True
  end.
Proof.
  revert w. unfold run_all_tests.
  repeat (apply verdict_bind; intros _). by intros w.
Qed.

(** X17.  Whatever the application and the network do, after
    [run_all_tests] on a fresh tester every counted request is either passed
    or recorded in [failed_tests], also when a check raises; and when it
    returns, the verdict is [True] exactly when [failed_tests] is empty. *)
Theorem run_all_tests_books fw envs s :
  let out := run_all_tests fw envs (mkWorld new_tester s) in
  balanced out.2 ∧
  match out.1 with
  | Ok verdict => verdict = bool_decide (failed_tests (tester out.2) = [])
  | Raise _ => True
  end.
Proof.
  intros out.
  assert (Hbal : balanced out.2) by (by apply keeps_run_all_tests_body).
  split; [done |].
  pose proof (verdict_run_all_tests fw envs (mkWorld new_tester s)) as Hv. fold out in Hv.
  destruct (out.1) as [verdict|e]; [|done]. rewrite Hv.
  unfold balanced in Hbal. apply bool_decide_ext.
  destruct (failed_tests (tester out.2)); simpl in Hbal; split; (lia || done).
Qed.

(** ** Requests on a state with all four entries *)

Lemma handle_result r s :
  well_formed (traffic_data s) →
  (∃ resp, (handle r s).1 = Ok resp) ∨
  (∃ d, r = ReqManual d ∧ (d ∉ directions) ∧
        handle r s = (Raise (HTTPException 400 "Invalid direction"), s)).
Proof.
  intros Hwf. destruct r as [inp| | |d| |]; cbn [handle].
  2, 3, 5: left; by eexists.
  - left. destruct (skipped s) eqn:Hskip.
    + rewrite update_traffic_skip by done. by eexists.
    + destruct (update_traffic_run inp s Hskip Hwf) as (g & c & td' & _ & _ & -> & _).
      by eexists.
  - destruct (decide (d ∈ directions)) as [Hd|Hd].
    + left. destruct (set_manual_control_run d s Hd Hwf) as (td' & -> & _). by eexists.
    + right. exists d. by rewrite set_manual_control_reject.
  - left. destruct (reset_simulation_run s) as (td' & -> & _). by eexists.
Qed.

(** X18.  In a state reached from the initial one no handler fails with
    anything but the rejection of an invalid manual direction: every other
    request returns normally, and [get_current_traffic] returns a
    snapshot. *)
Theorem reachable_requests_answered rs r :
  let s := serve rs simulation_state in
  ((∃ resp, (handle r s).1 = Ok resp) ∨
   (∃ d, r = ReqManual d ∧ (d ∉ directions) ∧
         handle r s = (Raise (HTTPException 400 "Invalid direction"), s))) ∧
  (∃ ts, (get_current_traffic s).1 = Ok ts).
Proof.
  intros s.
  assert (Hwf : well_formed (traffic_data s)) by apply serve_well_formed, well_formed_initial.
  split; [by apply handle_result |].
  destruct (get_current_traffic_run s) as [_ Hget].
  apply first_missing_None in Hwf. rewrite Hwf in Hget.
  destruct Hget as (ts & Hts & _). by exists ts.
Qed.

Lemma handle_other_keys r s k :
  well_formed (traffic_data s) →
  k ∉ directions →
  traffic_data (handle r s).2 !! k = traffic_data s !! k.
Proof.
  intros Hwf Hk. destruct r as [inp| | |d| |]; cbn [handle]; try done.
  - destruct (skipped s) eqn:Hskip.
    + by rewrite update_traffic_skip.
    + destruct (update_traffic_run inp s Hskip Hwf) as (g & c & td' & _ & _ & -> & Htd').
      cbn [snd traffic_data]. rewrite Htd'.
      destruct (dict_get _ k) eqn:Hget; [|done].
      by apply dict_get_drawn_elem in Hget.
  - destruct (decide (d ∈ directions)) as [Hd|Hd].
    + destruct (set_manual_control_run d s Hd Hwf) as (td' & -> & Htd').
      cbn [snd traffic_data]. by rewrite Htd', decide_False.
    + by rewrite set_manual_control_reject.
  - destruct (reset_simulation_run s) as (td' & -> & Htd').
    cbn [snd traffic_data]. by rewrite Htd', decide_False.
Qed.

Lemma reset_simulation_other_keys s1 s2 :
  (∀ k, k ∉ directions → traffic_data s1 !! k = traffic_data s2 !! k) →
  (reset_simulation s1).2 = (reset_simulation s2).2.
Proof.
  intros Hk.
  destruct (reset_simulation_run s1) as (td1 & -> & Htd1).
  destruct (reset_simulation_run s2) as (td2 & -> & Htd2).
  cbn [snd]. f_equal. apply map_eq. intros k. rewrite Htd1, Htd2.
  case_decide; [done | by apply Hk].
Qed.

Lemma reset_after_serve rs s :
  well_formed (traffic_data s) →
  (reset_simulation (serve rs s)).2 = (reset_simulation s).2.
Proof.
  intros Hwf. apply reset_simulation_other_keys. revert s Hwf.
  induction rs as [|r rs IH]; intros s Hwf k Hk; [done |].
  cbn [serve]. rewrite IH by (by apply handle_well_formed || done).
  by apply handle_other_keys.
Qed.

(** X19.  A reset forgets every earlier request: from a state with all
    four entries, a reset after any run of requests leaves the same state as
    a reset at once. *)
Theorem reset_forgets_requests rs s :
  well_formed (traffic_data s) →
  (reset_simulation (serve rs s)).2 = (reset_simulation s).2.
Proof. apply reset_after_serve. Qed.

Lemma reset_forgets_requests_witness :
  let s := (update_traffic demo_inputs simulation_state).2 in
  let rs := [ReqManual "south"; ReqPause; ReqAuto; ReqUpdate demo_inputs] in
  well_formed (traffic_data s) ∧
  (reset_simulation (serve rs s)).2 = (reset_simulation s).2.
Proof.
  intros s rs.
  assert (Hwf : well_formed (traffic_data s)).
  { apply (handle_well_formed (ReqUpdate demo_inputs)). exact well_formed_initial. }
  split; [exact Hwf |].
  exact (reset_forgets_requests rs s Hwf).
Defined.

(** ** The tests against an application that answers *)

Lemma t_bind_run {A B} (m : T A) (k : A → T B) w a w' :
  m w = (Ok a, w') → (m ≫= k) w = k a w'.
Proof. intros H. unfold mbind, T_bind. by rewrite H. Qed.

Lemma run_test_delivered fw envs name method endpoint expected data t s response s' :
  method = "GET" ∨ method = "POST" →
  net (envs (tests_run t)) = Delivered →
  api_router fw (inputs (envs (tests_run t))) method endpoint data s = (response, s') →
  status response = expected →
  run_test fw envs name method endpoint expected data (mkWorld t s)
    = (Ok (true, json_or_empty (content response)), mkWorld (advance 1 t) s').
Proof.
  intros Hm Hnet Happ Hst. unfold run_test. cbn [tester server].
  rewrite decide_True by done. rewrite Hnet, Happ, Hst, Z.eqb_refl. done.
Qed.

Section Answered.
Variable fw : Framework.
Variable envs : nat → Env.
Hypothesis Hnet : ∀ k, net (envs k) = Delivered.

Lemma test_root_endpoint_run t s :
  test_root_endpoint fw envs (mkWorld t s)
    = (Ok (true, BRoot "AI Traffic Signal Controller API"), mkWorld (advance 1 t) s).
Proof.
  unfold test_root_endpoint.
  by erewrite run_test_delivered; [| by left | done | reflexivity | reflexivity].
Qed.

Lemma test_get_current_traffic_run t s :
  well_formed (traffic_data s) →
  test_get_current_traffic fw envs (mkWorld t s) = (Ok true, mkWorld (advance 1 t) s).
Proof.
  intros Hwf. destruct (get_current_traffic_run s) as [Hst Hget].
  apply first_missing_None in Hwf. rewrite Hwf in Hget. destruct Hget as (ts & Hts & _).
  unfold test_get_current_traffic.
  erewrite t_bind_run; last first.
  { eapply run_test_delivered; [by left | done | |].
    - change (api_router _ _ "GET" "traffic/current" None s)
        with (serve_route BState get_current_traffic s).
      unfold serve_route. by rewrite Hts, Hst.
    - done. }
  done.
Qed.

Lemma test_traffic_update_run t s :
  well_formed (traffic_data s) →
  test_traffic_update fw envs (mkWorld t s)
    = (Ok (negb (skipped s)),
       mkWorld (advance 1 t) (update_traffic (inputs (envs (tests_run t))) s).2).
Proof.
  intros Hwf. unfold test_traffic_update.
  set (inp := inputs (envs (tests_run t))).
  assert (Hres : ∃ resp, (update_traffic inp s).1 = Ok resp ∧
                         has_key (BResp resp) "traffic_data" = negb (skipped s)).
  { destruct (skipped s) eqn:Hskip.
    - rewrite update_traffic_skip by done. by eexists.
    - destruct (update_traffic_run inp s Hskip Hwf) as (g & c & td' & _ & _ & -> & _).
      by eexists. }
  destruct Hres as (resp & Hresp & Hkey).
  erewrite t_bind_run; last first.
  { eapply run_test_delivered; [by right | done | |].
    - change (api_router _ _ "POST" "traffic/update" None s)
        with (serve_route BResp (update_traffic inp) s).
      unfold serve_route. by rewrite Hresp.
    - done. }
  cbn [fst snd status content respond json_or_empty]. rewrite Hkey.
  by destruct (skipped s).
Qed.

Lemma test_get_insights_run t s :
  test_get_insights fw envs (mkWorld t s)
    = (Ok (true, BInsights (insights s)), mkWorld (advance 1 t) s).
Proof.
  unfold test_get_insights.
  by erewrite run_test_delivered; [| by left | done | reflexivity | reflexivity].
Qed.

Lemma test_pause_resume_simulation_run t s :
  test_pause_resume_simulation fw envs (mkWorld t s)
    = (Ok true, mkWorld (advance 2 t) (with_is_paused false s)).
Proof.
  unfold test_pause_resume_simulation.
  erewrite t_bind_run;
    [| by erewrite run_test_delivered; [| by right | done | reflexivity | reflexivity]].
  cbn [fst negb].
  erewrite t_bind_run;
    [| by erewrite run_test_delivered; [| by right | done | reflexivity | reflexivity]].
  by destruct s, t.
Qed.

Lemma manual_control_loop_run ds : ∀ t s,
  Forall (λ d, d ∈ directions) ds →
  well_formed (traffic_data s) →
  manual_control_loop fw envs ds (mkWorld t s)
    = (Ok true, mkWorld (advance (length ds) t) (serve (ReqManual <$> ds) s)).
Proof.
  induction ds as [|d ds IH]; intros t s Hds Hwf.
  - by destruct t.
  - apply Forall_cons in Hds as [Hd Hds].
    destruct (set_manual_control_run d s Hd Hwf) as (td' & Hrun & Htd').
    cbn [manual_control_loop].
    erewrite t_bind_run; last first.
    { eapply run_test_delivered; [by right | done | |].
      - change (api_router _ _ "POST" "traffic/manual" (Some d) s)
          with (serve_route BResp (set_manual_control d) s).
        unfold serve_route. by rewrite Hrun.
      - done. }
    cbn [fst snd negb content status respond json_or_empty].
    change (has_key (BResp (MessageTraffic _ _)) "traffic_data") with true. cbv iota.
    assert (Hitem : ∃ a, td' !! d = Some a ∧ signal a = "green").
    { rewrite Htd', decide_True by done.
      unfold well_formed in Hwf. rewrite Forall_forall in Hwf. destruct (Hwf d Hd) as [a ->].
      eexists. split; [done |]. simpl. unfold colour_for. by rewrite decide_True. }
    destruct Hitem as (a & Ha & Hgreen).
    erewrite t_bind_run; [| unfold lift_t, body_traffic_item; by rewrite Ha].
    rewrite decide_True by done.
    rewrite IH; [| done |].
    + cbn [fmap list_fmap serve handle length]. rewrite Hrun. cbn [snd].
      do 2 f_equal. unfold advance. cbn [tests_run tests_passed failed_tests].
      f_equal; lia.
    + pose proof (handle_well_formed (ReqManual d) s Hwf) as H. cbn [handle] in H.
      by rewrite Hrun in H.
Qed.

Lemma test_auto_mode_run t s :
  test_auto_mode fw envs (mkWorld t s)
    = (Ok (true, BResp (MessageManual "Switched to automatic mode" false)),
       mkWorld (advance 1 t) (with_is_manual false s)).
Proof.
  unfold test_auto_mode.
  by erewrite run_test_delivered; [| by right | done | reflexivity | reflexivity].
Qed.

Lemma test_reset_simulation_run t s :
  test_reset_simulation fw envs (mkWorld t s)
    = (Ok true, mkWorld (advance 1 t) (reset_simulation s).2).
Proof.
  destruct (reset_simulation_run s) as (td' & Hrun & Htd').
  unfold test_reset_simulation.
  erewrite t_bind_run; last first.
  { eapply run_test_delivered; [by right | done | |].
    - change (api_router _ _ "POST" "traffic/reset" None s)
        with (serve_route BResp reset_simulation s).
      unfold serve_route. by rewrite Hrun.
    - done. }
  cbn [fst snd content status respond json_or_empty andb].
  change (has_key (BResp (MessageTraffic _ _)) "traffic_data") with true. cbv iota.
  erewrite t_bind_run; last first.
  { unfold lift_t, reset_check_loop, body_traffic_item.
    rewrite !Htd'. reflexivity. }
  by rewrite Hrun.
Qed.

Lemma test_invalid_manual_direction_run t s :
  test_invalid_manual_direction fw envs (mkWorld t s)
    = (Ok (true, BDetail "Invalid direction"), mkWorld (advance 1 t) s).
Proof.
  assert (Hbad : "invalid" ∉ directions).
  { rewrite directions_elem. intros [H | [H | [H | H]]]; discriminate H. }
  unfold test_invalid_manual_direction. etrans.
  { eapply run_test_delivered; [by right | done | | ].
    - change (api_router _ _ "POST" "traffic/manual" (Some "invalid") s)
        with (serve_route BResp (set_manual_control "invalid") s).
      unfold serve_route. by rewrite set_manual_control_reject.
    - done. }
  done.
Qed.

Lemma run_all_tests_run s :
  well_formed (traffic_data s) →
  run_all_tests fw envs (mkWorld new_tester s)
    = (Ok true, mkWorld (mkTester 13 13 []) (reset_simulation s).2).
Proof.
  intros Hwf. unfold run_all_tests.
  set (rs := [ReqUpdate (inputs (envs 2)); ReqPause; ReqResume;
              ReqManual "north"; ReqManual "south"; ReqManual "east"; ReqManual "west";
              ReqAuto]).
  assert (Hwfs : ∀ n, well_formed (traffic_data (serve (take n rs) s))).
  { intros n. by apply serve_well_formed. }
  rewrite (t_bind_run _ _ _ _ _ (test_root_endpoint_run _ _)).
  rewrite (t_bind_run _ _ _ _ _ (test_get_current_traffic_run _ _ Hwf)).
  rewrite (t_bind_run _ _ _ _ _ (test_traffic_update_run _ _ Hwf)).
  rewrite (t_bind_run _ _ _ _ _ (test_get_insights_run _ _)).
  rewrite (t_bind_run _ _ _ _ _ (test_pause_resume_simulation_run _ _)).
  unfold test_manual_control.
  erewrite t_bind_run; last first.
  { apply manual_control_loop_run.
    - repeat constructor; apply directions_elem; tauto.
    - exact (Hwfs 3%nat). }
  rewrite (t_bind_run _ _ _ _ _ (test_auto_mode_run _ _)).
  rewrite (t_bind_run _ _ _ _ _ (test_reset_simulation_run _ _)).
  rewrite (t_bind_run _ _ _ _ _ (test_invalid_manual_direction_run _ _)).
  unfold all_passed. cbn [tester tests_run tests_passed].
  change (with_is_manual false _) with (serve rs s).
  rewrite (reset_after_serve rs s Hwf). reflexivity.
Qed.

End Answered.

(** X20.  Against an application that answers, [test_traffic_update]
    counts its request as passed whether or not the cycle ran: status 200
    is all [run_test] looks at.  Its own result is [True] only when the
    cycle was not skipped, since a skipped cycle returns no
    [traffic_data]. *)
Theorem test_traffic_update_skipped_passes fw envs t s :
  (∀ k, net (envs k) = Delivered) →
  well_formed (traffic_data s) →
  test_traffic_update fw envs (mkWorld t s)
    = (Ok (negb (skipped s)),
       mkWorld (advance 1 t) (update_traffic (inputs (envs (tests_run t))) s).2).
Proof. intros Hnet Hwf. by apply test_traffic_update_run. Qed.

Lemma test_traffic_update_skipped_passes_witness :
  let s := with_is_paused true simulation_state in
  (∀ k, net (demo_envs k) = Delivered) ∧
  well_formed (traffic_data s) ∧
  test_traffic_update demo_framework demo_envs (mkWorld new_tester s)
    = (Ok false, mkWorld (mkTester 1 1 []) s).
Proof.
  intros s.
  assert (Hnet : ∀ k, net (demo_envs k) = Delivered) by done.
  split_and!; [exact Hnet | exact well_formed_initial |].
  exact (test_traffic_update_skipped_passes demo_framework demo_envs new_tester s
           Hnet well_formed_initial).
Defined.

(** X21.  Against an application that answers, [test_manual_control]
    passes its four requests and returns [True], and it leaves the
    application as a single manual override of ["west"] would: in manual
    mode with west green. *)
Theorem test_manual_control_leaves_west fw envs t s :
  (∀ k, net (envs k) = Delivered) →
  well_formed (traffic_data s) →
  test_manual_control fw envs (mkWorld t s)
    = (Ok true, mkWorld (advance 4 t) (set_manual_control "west" s).2).
Proof.
  intros Hnet Hwf. unfold test_manual_control.
  assert (Hin : ∀ d, d ∈ ["north"; "south"; "east"; "west"] → d ∈ directions) by done.
  rewrite manual_control_loop_run; [| done | by apply Forall_forall | done].
  do 2 f_equal. cbn [fmap list_fmap serve handle].
  pose proof (handle_well_formed (ReqManual "north") s Hwf) as Hwf1.
  pose proof (handle_well_formed (ReqManual "south") _ Hwf1) as Hwf2.
  cbn [handle] in Hwf1, Hwf2.
  rewrite !set_manual_control_twice; try done; apply directions_elem; tauto.
Qed.

Lemma test_manual_control_leaves_west_witness :
  (∀ k, net (demo_envs k) = Delivered) ∧
  well_formed (traffic_data simulation_state) ∧
  test_manual_control demo_framework demo_envs (mkWorld new_tester simulation_state)
    = (Ok true, mkWorld (mkTester 4 4 []) (set_manual_control "west" simulation_state).2).
Proof.
  assert (Hnet : ∀ k, net (demo_envs k) = Delivered) by done.
  split_and!; [exact Hnet | exact well_formed_initial |].
  exact (test_manual_control_leaves_west demo_framework demo_envs new_tester simulation_state
           Hnet well_formed_initial).
Defined.

(** X22.  Against an application that answers and holds all four entries,
    also one that is paused or in manual mode, [run_all_tests] makes 13
    requests, passes all of them, returns [True] (exit status 0), and
    leaves the application in the state a reset gives. *)
Theorem run_all_tests_passes fw envs s :
  (∀ k, net (envs k) = Delivered) →
  well_formed (traffic_data s) →
  run_all_tests fw envs (mkWorld new_tester s)
    = (Ok true, mkWorld (mkTester 13 13 []) (reset_simulation s).2) ∧
  (main fw envs s).1 = Ok 0.
Proof.
  intros Hnet Hwf. pose proof (run_all_tests_run fw envs Hnet s Hwf) as Hrun.
  split; [done |]. unfold main. by rewrite Hrun.
Qed.

Lemma run_all_tests_passes_witness :
  let s := with_is_manual true (with_is_paused true simulation_state) in
  (∀ k, net (demo_envs k) = Delivered) ∧
  well_formed (traffic_data s) ∧
  run_all_tests demo_framework demo_envs (mkWorld new_tester s)
    = (Ok true, mkWorld (mkTester 13 13 []) simulation_state) ∧
  (main demo_framework demo_envs s).1 = Ok 0.
Proof.
  intros s.
  assert (Hnet : ∀ k, net (demo_envs k) = Delivered) by done.
  split; [exact Hnet |]. split; [exact well_formed_initial |].
  exact (run_all_tests_passes demo_framework demo_envs s Hnet well_formed_initial).
Defined.

(** A request that does not come back fails the suite. *)
Example run_all_tests_dropped_request :
  let envs := λ k, mkEnv (if (k =? 3)%nat then Dropped "timeout" else Delivered) demo_inputs in
  let out := run_all_tests demo_framework envs (mkWorld new_tester simulation_state) in
  out.1 = Ok false ∧
  tester out.2 = mkTester 13 12 [ErrorFailure "Get AI Insights" "timeout"].
Proof. by vm_compute. Qed.

(** ** The statuses of the application *)

Lemma serve_snoc rs r s : serve (rs ++ [r])%list s = (handle r (serve rs s)).2.
Proof. revert s. induction rs as [|r' rs IH]; intros s; [done | apply IH]. Qed.

Lemma serve_route_handle r s :
  well_formed (traffic_data s) →
  (status (serve_route BResp (handle r) s).1 = 200 ∨
   (serve_route BResp (handle r) s).1 = mkHttpResponse 400 (BDetail "Invalid direction")) ∧
  (serve_route BResp (handle r) s).2 = (handle r s).2.
Proof.
  intros Hwf. unfold serve_route. cbn [fst snd]. split; [|done].
  destruct (handle_result r s Hwf) as [[resp ->] | (d & -> & _ & ->)]; [by left | by right].
Qed.

(** X23.  In a state reached from the initial one, a request to the
    application is answered by the framework (no such route, or a manual
    request without a valid body), with status 200, or with status 400 and
    the detail ["Invalid direction"]; it is never answered with status 500.
    The state afterwards is the same state or the state after one more
    request. *)
Theorem api_router_reachable fw inp method endpoint data rs :
  let s := serve rs simulation_state in
  let out := api_router fw inp method endpoint data s in
  (out.1 = no_route fw method endpoint ∨ out.1 = unprocessable fw ∨
   status out.1 = 200 ∨ out.1 = mkHttpResponse 400 (BDetail "Invalid direction")) ∧
  (out.2 = s ∨ ∃ r, out.2 = serve (rs ++ [r])%list simulation_state).
Proof.
  intros s out.
  assert (Hwf : well_formed (traffic_data s)) by apply serve_well_formed, well_formed_initial.
  assert (Hhandle : ∀ r,
    let o := serve_route BResp (handle r) s in
    (o.1 = no_route fw method endpoint ∨ o.1 = unprocessable fw ∨
     status o.1 = 200 ∨ o.1 = mkHttpResponse 400 (BDetail "Invalid direction")) ∧
    (o.2 = s ∨ ∃ r, o.2 = serve (rs ++ [r])%list simulation_state)).
  { intros r o. destruct (serve_route_handle r s Hwf) as [Hst Hs]. subst o. split.
    - destruct Hst as [Hst | Hst]; [right; right; by left | by repeat right].
    - right. exists r. by rewrite serve_snoc. }
  subst out. unfold api_router. repeat case_decide.
  - split; [right; right; by left | by left].
  - destruct (get_current_traffic_run s) as [Hst Hget].
    apply first_missing_None in Hwf. rewrite Hwf in Hget. destruct Hget as (ts & Hts & _).
    unfold serve_route. rewrite Hts, Hst. split; [right; right; by left | by left].
  - exact (Hhandle (ReqUpdate inp)).
  - split; [right; right; by left | by left].
  - exact (Hhandle ReqPause).
  - exact (Hhandle ReqResume).
  - destruct data as [direction|].
    + exact (Hhandle (ReqManual direction)).
    + split; [right; by left | by left].
  - exact (Hhandle ReqAuto).
  - exact (Hhandle ReqReset).
  - split; [by left | by left].
Qed.
